(** * SafeLift-AI dashboard: the WebSocket client ([dashboard/src/utils/ws.js])

    A shallow embedding of [class WebSocketClient] and of the part of the
    browser it talks to: the [WebSocket] objects it creates, the timer table
    behind [setInterval]/[setTimeout], the console, and the callbacks that
    the application registers with [subscribe].

    Everything the class does is a state change of one [World]; the events
    the event loop delivers (socket events, timer expiry) and the calls the
    application makes are the labels of a transition function [step].

    The pages that use the client ([pages/LiveEvents.jsx],
    [components/Topbar.jsx]) are modelled on top of it: the listener of the
    live events page as a listener body, and what the page derives from
    its events as functions on lists. *)

From Stdlib Require Import ZArith Ascii String List Lia.
From stdpp Require Import base option list sets strings gmap.
Import ListNotations.

Local Open Scope string_scope.
Local Open Scope Z_scope.

(** ** Data model *)

(** [WebSocket.readyState]: CONNECTING = 0, OPEN = 1, CLOSING = 2, CLOSED = 3. *)
Inductive ReadyState := CONNECTING | OPEN | CLOSING | CLOSED.

#[global] Instance ReadyState_eq_dec : EqDecision ReadyState.
Proof. solve_decision. Defined.

(** A browser [WebSocket] object.  [sent] collects the frames handed to
    [send], oldest first.  The four handlers installed by [connect] are the
    same closures over [this] for every socket, so they are not stored. *)
Record WebSocket := mkWebSocket {
  url : string;
  readyState : ReadyState;
  sent : list string
}.

(** A listener is known by reference identity only. *)
Definition Callback := nat.

(** An entry of the timer table.  The class has one [setInterval] site (the
    heartbeat, line 25) and one [setTimeout] site (the reconnect, line 60),
    so the kind of a timer also tells which closure it runs. *)
Inductive Timer := Interval (period : Z) | Timeout (delay : Z).

Inductive ConsoleEntry :=
| console_log (msg : string)
| console_log_reconnecting (attempt max : Z)
| console_error (msg : string).

(** The fields of [this] (constructor, lines 4-11).  [listeners] is the
    [[SetData]] list of the JS [Set]: insertion order, a deleted element
    leaves an empty slot ([None]).  [pingInterval] is [undefined] ([None])
    until the first open. *)
Record WebSocketClient := mkClient {
  ws : option nat;
  listeners : list (option Callback);
  reconnectAttempts : Z;
  maxReconnectAttempts : Z;
  reconnectDelay : Z;
  isIntentionallyClosed : bool;
  pingInterval : option positive
}.

(** How a call of a function ended. *)
Inductive Completion := Normal | Throw.

#[global] Instance Completion_eq_dec : EqDecision Completion.
Proof. solve_decision. Defined.

(** What a listener does to the client while it runs: calls of
    [subscribe] and of unsubscribe handles.  (Listeners that call
    [connect], [disconnect] or [notifyListeners] themselves are not
    modelled.) *)
Inductive Effect := Subscribe (cb : Callback) | Unsubscribe (cb : Callback).

#[global] Instance Effect_eq_dec : EqDecision Effect.
Proof. solve_decision. Defined.

Section Model.

Context {Data U : Type}.

(** One call [callback(data)], as observed from outside: who was called,
    with what, what the body did to the listener set, and how it ended. *)
Record Invocation := mkInvocation {
  inv_cb : Callback;
  inv_data : Data;
  inv_effects : list Effect;
  inv_completion : Completion
}.

(** The client together with the browser state it can reach.
    [sockets] is the heap of [WebSocket] objects, a handle is an index;
    [timers] is the table of active timers, whose handles are positive
    integers shared by [setInterval] and [setTimeout]; [calls] is the
    history of listener invocations (instrumentation, oldest first);
    [user] is the state of the application code behind the listeners. *)
Record World := mkWorld {
  this : WebSocketClient;
  sockets : list WebSocket;
  timers : list (positive * Timer);
  nextTimer : positive;
  console : list ConsoleEntry;
  calls : list Invocation;
  user : U
}.

(** What the class takes from its host: the build-time variable
    [import.meta.env.VITE_WS_URL], the builtin [JSON.parse] ([None] when it
    throws a SyntaxError), and the bodies of the registered callbacks.  A
    body reads the message and the application state, and performs some
    [subscribe]/unsubscribe calls before it returns or throws; it is
    assumed not to write to the message object, which all listeners of
    one dispatch share. *)
Record Runtime := mkRuntime {
  VITE_WS_URL : option string;
  JSON_parse : string -> option Data;
  listener_body : Callback -> Data -> U -> U * list Effect * Completion
}.

(** Result of running a loop with a bound on the number of iterations. *)
Inductive Result := Done (w : World) | OutOfFuel (w : World).

Definition world_of (r : Result) : World :=
  match r with Done w => w | OutOfFuel w => w end.

(** *** Field updates *)

Definition set_ws (v : option nat) (c : WebSocketClient) : WebSocketClient :=
  mkClient v (listeners c) (reconnectAttempts c) (maxReconnectAttempts c)
           (reconnectDelay c) (isIntentionallyClosed c) (pingInterval c).

Definition set_listeners (v : list (option Callback)) (c : WebSocketClient) : WebSocketClient :=
  mkClient (ws c) v (reconnectAttempts c) (maxReconnectAttempts c)
           (reconnectDelay c) (isIntentionallyClosed c) (pingInterval c).

Definition set_reconnectAttempts (v : Z) (c : WebSocketClient) : WebSocketClient :=
  mkClient (ws c) (listeners c) v (maxReconnectAttempts c)
           (reconnectDelay c) (isIntentionallyClosed c) (pingInterval c).

Definition set_isIntentionallyClosed (v : bool) (c : WebSocketClient) : WebSocketClient :=
  mkClient (ws c) (listeners c) (reconnectAttempts c) (maxReconnectAttempts c)
           (reconnectDelay c) v (pingInterval c).

Definition set_pingInterval (v : option positive) (c : WebSocketClient) : WebSocketClient :=
  mkClient (ws c) (listeners c) (reconnectAttempts c) (maxReconnectAttempts c)
           (reconnectDelay c) (isIntentionallyClosed c) v.

Definition upd_this (f : WebSocketClient -> WebSocketClient) (w : World) : World :=
  mkWorld (f (this w)) (sockets w) (timers w) (nextTimer w) (console w) (calls w) (user w).

Definition set_sockets (v : list WebSocket) (w : World) : World :=
  mkWorld (this w) v (timers w) (nextTimer w) (console w) (calls w) (user w).

Definition set_timers (v : list (positive * Timer)) (w : World) : World :=
  mkWorld (this w) (sockets w) v (nextTimer w) (console w) (calls w) (user w).

Definition set_nextTimer (v : positive) (w : World) : World :=
  mkWorld (this w) (sockets w) (timers w) v (console w) (calls w) (user w).

Definition set_calls (v : list Invocation) (w : World) : World :=
  mkWorld (this w) (sockets w) (timers w) (nextTimer w) (console w) v (user w).

Definition set_user (v : U) (w : World) : World :=
  mkWorld (this w) (sockets w) (timers w) (nextTimer w) (console w) (calls w) v.

Definition print (e : ConsoleEntry) (w : World) : World :=
  mkWorld (this w) (sockets w) (timers w) (nextTimer w) (console w ++ [e]) (calls w) (user w).

(** ** The browser side *)

(** [new WebSocket(url)]: a fresh object in state CONNECTING. *)
Definition new_WebSocket (u : string) (w : World) : nat * World :=
  (length (sockets w), set_sockets (sockets w ++ [mkWebSocket u CONNECTING []]) w).

(** [socket.close()]: starts the closing handshake of a socket that is
    connecting or open, and does nothing to one that is closing or closed. *)
Definition WebSocket_close (s : WebSocket) : WebSocket :=
  match readyState s with
  | CONNECTING | OPEN => mkWebSocket (url s) CLOSING (sent s)
  | CLOSING | CLOSED => s
  end.

(** [socket.send(frame)] on an open socket. *)
Definition WebSocket_send (frame : string) (s : WebSocket) : WebSocket :=
  mkWebSocket (url s) (readyState s) (sent s ++ [frame]).

Definition set_readyState (r : ReadyState) (s : WebSocket) : WebSocket :=
  mkWebSocket (url s) r (sent s).

Definition upd_socket (h : nat) (f : WebSocket -> WebSocket) (w : World) : World :=
  match sockets w !! h with
  | Some s => set_sockets (<[h := f s]> (sockets w)) w
  | None => w
  end.

(** [setInterval]/[setTimeout]: the handle is the next positive integer.
    A handle is never 0, so the tests [if (this.pingInterval)] of lines 52
    and 70 ask whether the field has been set at all. *)
Definition setTimer (t : Timer) (w : World) : positive * World :=
  (nextTimer w,
   set_nextTimer (Pos.succ (nextTimer w)) (set_timers (timers w ++ [(nextTimer w, t)]) w)).

(** [clearInterval(id)]. *)
Definition clearTimer (id : positive) (w : World) : World :=
  set_timers (filter (fun e => fst e <> id) (timers w)) w.

(** ** The JS [Set] of listeners *)

(** [Set.prototype.add]: appends unless the value is already an element. *)
Definition Set_add (cb : Callback) (l : list (option Callback)) : list (option Callback) :=
  if bool_decide (Some cb ∈ l) then l else l ++ [Some cb].

(** [Set.prototype.delete]: the element's slot becomes empty. *)
Fixpoint Set_delete (cb : Callback) (l : list (option Callback)) : list (option Callback) :=
  match l with
  | [] => []
  | e :: l' => if bool_decide (e = Some cb) then None :: l' else e :: Set_delete cb l'
  end.

(** The elements, in iteration order. *)
Definition Set_elements (l : list (option Callback)) : list Callback :=
  omap id l.

(** ** [class WebSocketClient] *)

(** [constructor()], lines 4-11. *)
Definition constructor : WebSocketClient :=
  mkClient None [] 0 5 3000 false None.

(** The world in which the module is loaded: line 116 constructs the one
    client; no socket and no timer exists yet. *)
Definition init (u : U) : World :=
  mkWorld constructor [] [] 1%positive [] [] u.

(** Line 1: [import.meta.env.VITE_WS_URL || 'ws://localhost:8000/ws/events']. *)
Definition WS_URL (rt : Runtime) : string :=
  match VITE_WS_URL rt with
  | Some u => if String.eqb u "" then "ws://localhost:8000/ws/events" else u
  | None => "ws://localhost:8000/ws/events"
  end.

(** [this.ws?.readyState === r]. *)
Definition ws_readyState_is (r : ReadyState) (w : World) : bool :=
  match ws (this w) with
  | Some h =>
      match sockets w !! h with
      | Some s => bool_decide (readyState s = r)
      | None => false
      end
  | None => false
  end.

(** [connect()], lines 13-19; the handlers of lines 21-64 are [onopen],
    [onmessage], [onerror] and [onclose] below. *)
Definition connect (rt : Runtime) (w : World) : World :=
  if ws_readyState_is OPEN w then w
  else
    let w1 := upd_this (set_isIntentionallyClosed false) w in
    let '(h, w2) := new_WebSocket (WS_URL rt) w1 in
    upd_this (set_ws (Some h)) w2.

(** The heartbeat closure, lines 25-29. *)
Definition heartbeat (w : World) : World :=
  if ws_readyState_is OPEN w then
    match ws (this w) with
    | Some h => upd_socket h (WebSocket_send "ping") w
    | None => w
    end
  else w.

(** [ws.onopen], lines 21-30. *)
Definition onopen (w : World) : World :=
  let w1 := print (console_log "WebSocket connected") w in
  let w2 := upd_this (set_reconnectAttempts 0) w1 in
  let '(id, w3) := setTimer (Interval 30000) w2 in
  upd_this (set_pingInterval (Some id)) w3.

(** The subscribe/unsubscribe calls of a listener body act on
    [this.listeners], in order. *)
Definition apply_effect (e : Effect) (l : list (option Callback)) : list (option Callback) :=
  match e with
  | Subscribe cb => Set_add cb l
  | Unsubscribe cb => Set_delete cb l
  end.

Definition apply_effects (es : list Effect) (l : list (option Callback)) : list (option Callback) :=
  fold_left (fun acc e => apply_effect e acc) es l.

(** One call [callback(data)] inside the [try] of lines 90-94: the body
    runs, and a thrown error is logged by the [catch]. *)
Definition call_listener (rt : Runtime) (cb : Callback) (data : Data) (w : World) : World :=
  let '(u', effects, completion) := listener_body rt cb data (user w) in
  let w1 := set_user u'
              (set_calls (calls w ++ [mkInvocation cb data effects completion]) w) in
  let w2 := upd_this (fun c => set_listeners (apply_effects effects (listeners c)) c) w1 in
  match completion with
  | Normal => w2
  | Throw => print (console_error "Error in WebSocket listener:") w2
  end.

(** [Set.prototype.forEach] over [this.listeners]: the index runs over the
    slots of the live list, empty slots are skipped, and the number of
    slots is read again after every call, so elements added by a callback
    are visited too.  [fuel] bounds the number of slots visited. *)
Fixpoint forEach (rt : Runtime) (fuel : nat) (data : Data) (index : nat) (w : World) : Result :=
  match listeners (this w) !! index with
  | None => Done w
  | Some e =>
      match fuel with
      | O => OutOfFuel w
      | S fuel' =>
          match e with
          | None => forEach rt fuel' data (S index) w
          | Some cb => forEach rt fuel' data (S index) (call_listener rt cb data w)
          end
      end
  end.

(** [notifyListeners(data)], lines 88-96. *)
Definition notifyListeners (rt : Runtime) (fuel : nat) (data : Data) (w : World) : Result :=
  forEach rt fuel data 0 w.

(** [ws.onmessage], lines 32-43. *)
Definition onmessage (rt : Runtime) (fuel : nat) (payload : string) (w : World) : Result :=
  if String.eqb payload "pong" then Done w
  else
    match JSON_parse rt payload with
    | Some data => notifyListeners rt fuel data w
    | None => Done (print (console_error "Error parsing WebSocket message:") w)
    end.

(** [ws.onerror], lines 45-47. *)
Definition onerror (w : World) : World :=
  print (console_error "WebSocket error:") w.

(** [ws.onclose], lines 49-64. *)
Definition onclose (w : World) : World :=
  let w1 := print (console_log "WebSocket disconnected") w in
  let w2 := match pingInterval (this w1) with
            | Some id => clearTimer id w1
            | None => w1
            end in
  if negb (isIntentionallyClosed (this w2))
     && (reconnectAttempts (this w2) <? maxReconnectAttempts (this w2))
  then
    let w3 := upd_this (fun c => set_reconnectAttempts (reconnectAttempts c + 1) c) w2 in
    let w4 := print (console_log_reconnecting (reconnectAttempts (this w3))
                                               (maxReconnectAttempts (this w3))) w3 in
    snd (setTimer (Timeout (reconnectDelay (this w4))) w4)
  else w2.

(** [disconnect()], lines 67-78. *)
Definition disconnect (w : World) : World :=
  let w1 := upd_this (set_isIntentionallyClosed true) w in
  let w2 := match pingInterval (this w1) with
            | Some id => clearTimer id w1
            | None => w1
            end in
  match ws (this w2) with
  | Some h => upd_this (set_ws None) (upd_socket h WebSocket_close w2)
  | None => w2
  end.

(** [subscribe(callback)], lines 80-86.  The returned closure deletes the
    same callback; it is represented by that callback, and calling it is
    [unsubscribe]. *)
Definition subscribe (cb : Callback) (w : World) : World * Callback :=
  (upd_this (fun c => set_listeners (Set_add cb (listeners c)) c) w, cb).

Definition unsubscribe (handle : Callback) (w : World) : World :=
  upd_this (fun c => set_listeners (Set_delete handle (listeners c)) c) w.

(** [getConnectionState()], lines 98-113.  The [default] branch answers
    for a ready state outside the four constants; here that is a handle
    that names no socket. *)
Definition getConnectionState (w : World) : string :=
  match ws (this w) with
  | None => "DISCONNECTED"
  | Some h =>
      match readyState <$> sockets w !! h with
      | Some CONNECTING => "CONNECTING"
      | Some OPEN => "CONNECTED"
      | Some CLOSING => "CLOSING"
      | Some CLOSED => "DISCONNECTED"
      | None => "UNKNOWN"
      end
  end.

(** ** The event loop *)

(** What can happen next: a call by the application, an event on one of
    the sockets, or the expiry of a timer.  A message event carries the
    text of the frame ([event.data]). *)
Inductive Event :=
| Call_connect
| Call_disconnect
| Call_subscribe (cb : Callback)
| Call_unsubscribe (handle : Callback)
| Ev_open (h : nat)
| Ev_message (h : nat) (payload : string)
| Ev_error (h : nat)
| Ev_close (h : nat)
| Ev_timer (id : positive).

(** The events the application does not cause. *)
Definition environment_event (e : Event) : bool :=
  match e with
  | Call_connect | Call_disconnect | Call_subscribe _ | Call_unsubscribe _ => false
  | _ => true
  end.

Definition lookup_timer (id : positive) (w : World) : option Timer :=
  match list_find (fun e => fst e = id) (timers w) with
  | Some (_, (_, t)) => Some t
  | None => None
  end.

(** One turn of the event loop.  [None]: the browser cannot deliver the
    event in this world (a socket opens only while connecting, delivers
    messages only while open, closes once; a timer fires only while it is
    in the table), or the dispatch did not finish within [fuel].  The
    browser changes [readyState] before it runs the handler; a timeout
    leaves the table when it fires, an interval stays. *)
Definition step (rt : Runtime) (fuel : nat) (e : Event) (w : World) : option World :=
  match e with
  | Call_connect => Some (connect rt w)
  | Call_disconnect => Some (disconnect w)
  | Call_subscribe cb => Some (fst (subscribe cb w))
  | Call_unsubscribe handle => Some (unsubscribe handle w)
  | Ev_open h =>
      match sockets w !! h with
      | Some s =>
          match readyState s with
          | CONNECTING => Some (onopen (upd_socket h (set_readyState OPEN) w))
          | _ => None
          end
      | None => None
      end
  | Ev_message h payload =>
      match sockets w !! h with
      | Some s =>
          match readyState s with
          | OPEN =>
              match onmessage rt fuel payload w with
              | Done w' => Some w'
              | OutOfFuel _ => None
              end
          | _ => None
          end
      | None => None
      end
  | Ev_error h =>
      match sockets w !! h with
      | Some _ => Some (onerror w)
      | None => None
      end
  | Ev_close h =>
      match sockets w !! h with
      | Some s =>
          match readyState s with
          | CLOSED => None
          | _ => Some (onclose (upd_socket h (set_readyState CLOSED) w))
          end
      | None => None
      end
  | Ev_timer id =>
      match lookup_timer id w with
      | Some (Interval _) => Some (heartbeat w)
      | Some (Timeout _) => Some (connect rt (clearTimer id w))
      | None => None
      end
  end.

(** A sequence of turns. *)
Fixpoint run (rt : Runtime) (fuel : nat) (es : list Event) (w : World) : option World :=
  match es with
  | [] => Some w
  | e :: es' =>
      match step rt fuel e w with
      | Some w' => run rt fuel es' w'
      | None => None
      end
  end.

(** The worlds the client can be in. *)
Definition reachable (rt : Runtime) (w : World) : Prop :=
  exists u fuel es, run rt fuel es (init u) = Some w.

Definition is_timeout (e : positive * Timer) : bool :=
  match snd e with Timeout _ => true | Interval _ => false end.

(** A reconnection attempt is scheduled and has not fired yet. *)
Definition reconnect_pending (w : World) : bool :=
  existsb is_timeout (timers w).

(** A socket that is connecting or open. *)
Definition live (s : WebSocket) : bool :=
  match readyState s with
  | CONNECTING | OPEN => true
  | CLOSING | CLOSED => false
  end.

Definition live_sockets (w : World) : nat :=
  length (filter (fun s => live s = true) (sockets w)).

(** *** Runs of involuntary closes *)

(** The session's socket closes although [disconnect] was not called. *)
Definition involuntary_close (rt : Runtime) (fuel : nat) (w : World) : option World :=
  match ws (this w) with
  | Some h => step rt fuel (Ev_close h) w
  | None => None
  end.

(** The scheduled reconnection fires. *)
Definition reconnect_fires (rt : Runtime) (fuel : nat) (w : World) : option World :=
  match list_find (fun e => is_timeout e = true) (timers w) with
  | Some (_, (id, _)) => step rt fuel (Ev_timer id) w
  | None => None
  end.

(** [n] involuntary closes in a row: between two of them nothing happens
    but the firing of the reconnection that the earlier one scheduled; no
    socket opens, and the application calls nothing. *)
Fixpoint consecutive_closes (rt : Runtime) (fuel : nat) (n : nat) (w : World) : option World :=
  match n with
  | O => Some w
  | S n' =>
      match consecutive_closes rt fuel n' w with
      | Some w1 =>
          match n' with
          | O => involuntary_close rt fuel w1
          | S _ =>
              match reconnect_fires rt fuel w1 with
              | Some w2 => involuntary_close rt fuel w2
              | None => None
              end
          end
      | None => None
      end
  end.

(** The timer table after the [clearInterval] of [onclose]/[disconnect]. *)
Definition cleared (w : World) : list (positive * Timer) :=
  match pingInterval (this w) with
  | Some id => filter (fun e => fst e <> id) (timers w)
  | None => timers w
  end.

(** Timer handles are handed out in increasing order. *)
Definition timers_fresh (w : World) : Prop :=
  Forall (fun e => (fst e < nextTimer w)%positive) (timers w).

(** [pingInterval], once set, is a handle that was handed out, and it is
    not the handle of a scheduled reconnection. *)
Definition pingInterval_ok (w : World) : Prop :=
  forall id, pingInterval (this w) = Some id ->
    (id < nextTimer w)%positive
    /\ forall t, (id, t) ∈ timers w -> is_timeout (id, t) = false.

Definition all_closed (w : World) : Prop :=
  Forall (fun s => readyState s = CLOSED) (sockets w).

(** A session is under way: its socket is the only one that is not
    closed, the application has not disconnected, no reconnection is
    scheduled, and [k] reconnections have been used up. *)
Definition awaiting (k : Z) (w : World) : Prop :=
  (exists h s, ws (this w) = Some h /\ sockets w !! h = Some s
     /\ readyState s <> CLOSED
     /\ forall h' s', h' <> h -> sockets w !! h' = Some s' -> readyState s' = CLOSED)
  /\ reconnect_pending w = false
  /\ timers_fresh w
  /\ isIntentionallyClosed (this w) = false
  /\ reconnectAttempts (this w) = k
  /\ maxReconnectAttempts (this w) = 5.

(** The session was lost and its reconnection is scheduled. *)
Definition dropped (k : Z) (w : World) : Prop :=
  getConnectionState w = "DISCONNECTED"
  /\ all_closed w
  /\ (exists tm id delay, timers w = (tm ++ [(id, Timeout delay)])%list
        /\ existsb is_timeout tm = false
        /\ Forall (fun e => (fst e < id)%positive) tm
        /\ (id < nextTimer w)%positive)
  /\ isIntentionallyClosed (this w) = false
  /\ reconnectAttempts (this w) = k
  /\ maxReconnectAttempts (this w) = 5.

(** The client has stopped trying. *)
Definition given_up (w : World) : Prop :=
  getConnectionState w = "DISCONNECTED"
  /\ all_closed w
  /\ reconnect_pending w = false.

(** ** Vocabulary of the statements *)

(** Everything of a world except what its console shows. *)
Definition same_state (w w' : World) : Prop :=
  this w' = this w /\ sockets w' = sockets w /\ timers w' = timers w
  /\ nextTimer w' = nextTimer w /\ calls w' = calls w /\ user w' = user w.

(** The transport and the connection state of the client: everything of
    [this] but the listener set, the sockets and the timers. *)
Definition same_session (w w' : World) : Prop :=
  set_listeners [] (this w') = set_listeners [] (this w)
  /\ sockets w' = sockets w /\ timers w' = timers w /\ nextTimer w' = nextTimer w.

(** [cb] is an element of the listener set. *)
Definition registered (cb : Callback) (w : World) : Prop :=
  Some cb ∈ listeners (this w).

(** A [Set] holds a value in at most one slot. *)
Definition Set_wf (l : list (option Callback)) : Prop :=
  forall i j cb, l !! i = Some (Some cb) -> l !! j = Some (Some cb) -> i = j.

(** The listener calls made on the way from [w] to [w']. *)
Definition new_calls (w w' : World) : list Invocation :=
  drop (length (calls w)) (calls w').

(** How often [cb] was called in a history. *)
Definition invocations (cb : Callback) (tr : list Invocation) : nat :=
  length (filter (fun i => inv_cb i = cb) tr).

Definition effects_of (rt : Runtime) (c : Callback) (d : Data) (u : U) : list Effect :=
  snd (fst (listener_body rt c d u)).

(** The record of the call [c(d)] made in application state [u]. *)
Definition invocation_of (rt : Runtime) (c : Callback) (d : Data) (u : U) : Invocation :=
  mkInvocation c d (effects_of rt c d u) (snd (listener_body rt c d u)).

(** No call of the history unsubscribed [cb] (resp. subscribed it). *)
Definition not_unsubscribed (cb : Callback) (tr : list Invocation) : Prop :=
  Forall (fun x => Unsubscribe cb ∉ inv_effects x) tr.

Definition not_subscribed (cb : Callback) (tr : list Invocation) : Prop :=
  Forall (fun x => Subscribe cb ∉ inv_effects x) tr.

(** No call of the history touched the listener set. *)
Definition untouched (tr : list Invocation) : Prop :=
  Forall (fun x => inv_effects x = []) tr.

(** No listener body ever touches the listener set. *)
Definition passive (rt : Runtime) : Prop :=
  forall c d u, effects_of rt c d u = [].

(** The same host, except that listener bodies which would throw return
    normally instead, after the same effects. *)
Definition silence (rt : Runtime) : Runtime :=
  mkRuntime (VITE_WS_URL rt) (JSON_parse rt)
    (fun c d u => let '(u', es, _) := listener_body rt c d u in (u', es, Normal)).

(** A world with the traces of thrown errors wiped: the console is
    emptied and every recorded call counts as returned. *)
Definition forget_errors (w : World) : World :=
  mkWorld (this w) (sockets w) (timers w) (nextTimer w) []
    (map (fun i => mkInvocation (inv_cb i) (inv_data i) (inv_effects i) Normal) (calls w))
    (user w).

Definition is_done (r : Result) : bool :=
  match r with Done _ => true | OutOfFuel _ => false end.

(** The calls of a history that ended in a thrown error. *)
Definition thrown (tr : list Invocation) : list Invocation :=
  filter (fun i => inv_completion i = Throw) tr.

End Model.

Arguments World : clear implicits.
Arguments Runtime : clear implicits.
Arguments Result : clear implicits.
Arguments Invocation : clear implicits.

(** ** Sample hosts

    Concrete hosts for the examples.  Decoded messages are JSON values; the
    sample parser knows the texts of the empty object and the empty array
    and rejects everything else; the application state counts the listener
    calls made so far. *)

#[local] Unset Elimination Schemes.
Inductive JSON :=
| JNull
| JBool (b : bool)
| JNumber (n : Z)
| JString (s : string)
| JArray (items : list JSON)
| JObject (fields : list (string * JSON)).
#[local] Set Elimination Schemes.

Definition parse_sample (payload : string) : option JSON :=
  if String.eqb payload "{}" then Some (JObject [])
  else if String.eqb payload "[]" then Some (JArray [])
  else None.

(** Listeners that only look at the message. *)
Definition host_idle : Runtime JSON nat :=
  mkRuntime None parse_sample (fun _ _ n => (S n, [], Normal)).

(** Listener 0 unsubscribes listener 1 when it is called. *)
Definition host_unsubscribing : Runtime JSON nat :=
  mkRuntime None parse_sample
    (fun cb _ n => (S n, match cb with O => [Unsubscribe 1%nat] | _ => [] end, Normal)).

(** Listener 0 unsubscribes and subscribes itself again on its first call. *)
Definition host_resubscribing : Runtime JSON nat :=
  mkRuntime None parse_sample
    (fun cb _ n => (S n, match cb, n with
                         | O, O => [Unsubscribe 0%nat; Subscribe 0%nat]
                         | _, _ => []
                         end, Normal)).

(** Every listener unsubscribes and subscribes itself again, each time it
    is called. *)
Definition host_looping : Runtime JSON nat :=
  mkRuntime None parse_sample
    (fun cb _ n => (S n, [Unsubscribe cb; Subscribe cb], Normal)).

(** Listener 1 throws. *)
Definition host_throwing : Runtime JSON nat :=
  mkRuntime None parse_sample
    (fun cb _ n => (S n, [], match cb with 1%nat => Throw | _ => Normal end)).

(** Listener 0 unsubscribes listener 1 and then throws. *)
Definition host_unsubscribing_and_throwing : Runtime JSON nat :=
  mkRuntime None parse_sample
    (fun cb _ n => (S n, match cb with O => [Unsubscribe 1%nat] | _ => [] end,
                    match cb with O => Throw | _ => Normal end)).

(** A fresh client with listeners 0, 1 and 2 subscribed, in this order. *)
Definition three_listeners : World JSON nat :=
  fst (subscribe 2%nat (fst (subscribe 1%nat (fst (subscribe 0%nat (init 0%nat)))))).

(** A fresh client after [connect()], and after its socket has opened. *)
Definition connecting_client : World JSON nat :=
  connect host_idle (init 0%nat).

Definition open_client : World JSON nat :=
  onopen (upd_socket 0 (set_readyState OPEN) connecting_client).

(** ** Further vocabulary: what reachable worlds have in common *)

Section Invariants.

Context {Data U : Type}.

(** The session reference, when set, names a socket that exists. *)
Definition session_valid (w : World Data U) : Prop :=
  forall h, ws (this w) = Some h -> (h < length (sockets w))%nat.

(** The retry budget and the two delays. *)
Definition budget_ok (w : World Data U) : Prop :=
  0 <= reconnectAttempts (this w) <= 5
  /\ maxReconnectAttempts (this w) = 5
  /\ reconnectDelay (this w) = 3000
  /\ Forall (fun e => snd e = Interval 30000 \/ snd e = Timeout 3000) (timers w).

(** Every frame the client has handed to a socket is the probe. *)
Definition only_pings (w : World Data U) : Prop :=
  Forall (fun s => Forall (fun frame => frame = "ping") (sent s)) (sockets w).

(** The application has disconnected and nothing is scheduled. *)
(** While the client holds a session, [disconnect()] is not in effect. *)
Definition flag_ok (w : World Data U) : Prop :=
  forall h, ws (this w) = Some h -> isIntentionallyClosed (this w) = false.

Definition parked (w : World Data U) : Prop :=
  isIntentionallyClosed (this w) = true
  /\ ws (this w) = None
  /\ reconnect_pending w = false.

(** [subscribe] called for each callback of a list, first to last. *)
Definition subscribe_all (cbs : list Callback) (w : World Data U) : World Data U :=
  fold_left (fun v cb => fst (subscribe cb v)) cbs w.

End Invariants.

(** * The pages that use the client

    [dashboard/src/pages/LiveEvents.jsx] subscribes one listener to the
    client and keeps the events it is handed in its component state;
    [dashboard/src/components/Topbar.jsx] polls [getConnectionState()]. *)

(** ** [LiveEvents.jsx]: the subscription, lines 9-19 *)

(** The arrow function handed to [subscribe] in line 12. *)
Definition LiveEvents_callback : Callback := 0%nat.

(** Its body with the state updater of line 13 applied to the component
    state: [[newEvent, ...prevEvents].slice(0, 50)]. *)
Definition LiveEvents_listener {Data} (newEvent : Data) (prevEvents : list Data) : list Data :=
  take 50 (newEvent :: prevEvents).

(** A host whose application state is the [events] state of the page: the
    page's listener runs the updater, and no other listener can reach the
    state of the component. *)
Definition shows_LiveEvents {Data} (rt : Runtime Data (list Data)) : Prop :=
  forall cb d events,
    fst (fst (listener_body rt cb d events))
    = if bool_decide (cb = LiveEvents_callback) then LiveEvents_listener d events else events.

(** The messages the page's listener has been called with, oldest first. *)
Definition delivered {Data U} (w : World Data U) : list Data :=
  map inv_data (filter (fun x => inv_cb x = LiveEvents_callback) (calls w)).

(** The buffer of the page holds the 50 latest deliveries, newest first. *)
Definition buffer_ok {Data} (w : World Data (list Data)) : Prop :=
  user w = take 50 (rev (delivered w)).

(** The messages that frames decode to: what is left when the [pong]
    frames and the frames that [JSON.parse] rejects are dropped. *)
Definition decoded {Data U} (rt : Runtime Data U) (payloads : list string) : list Data :=
  omap (JSON_parse rt) (filter (fun p => p <> "pong") payloads).

(** The effect of lines 9-15 at mount, and its cleanup (line 17). *)
Definition LiveEvents_mount {Data U} (rt : Runtime Data U) (w : World Data U) : World Data U :=
  fst (subscribe LiveEvents_callback (connect rt w)).

Definition LiveEvents_cleanup {Data U} (w : World Data U) : World Data U :=
  unsubscribe LiveEvents_callback w.

(** The page alone on the sample decoder. *)
Definition host_LiveEvents : Runtime JSON (list JSON) :=
  mkRuntime None parse_sample
    (fun cb newEvent events =>
       (if bool_decide (cb = LiveEvents_callback)
        then LiveEvents_listener newEvent events else events, [], Normal)).

(** ** [LiveEvents.jsx]: what is derived from [events], lines 21-36 *)

(** An event as the page reads it: [event.severity] is a number, compared
    with [!==] and used as a property key, and [event.type] is a string. *)
Record SafetyEvent := mkSafetyEvent {
  severity : Z;
  type : string
}.

(** The [filter] state: the values of the two [select] elements. *)
Record Filter := mkFilter {
  filter_severity : string;
  filter_type : string
}.

(** [filteredEvents], lines 21-29.  [parseInt] is the browser's; [None] is
    [NaN], which is [!==] to every severity. *)
Definition filteredEvents (parseInt : string -> option Z) (flt : Filter)
    (events : list SafetyEvent) : list SafetyEvent :=
  List.filter
    (fun event =>
       if negb (String.eqb (filter_severity flt) "all")
          && negb (bool_decide (Some (severity event) = parseInt (filter_severity flt)))
       then false
       else if negb (String.eqb (filter_type flt) "all")
               && negb (String.eqb (type event) (filter_type flt))
       then false
       else true)
    events.

(** [uniqueTypes], line 31 (and line 46 of the history page):
    [[...new Set(events.map(e => e.type))]].  The [Set] constructor adds
    the values one after the other; nothing is deleted, so the iteration
    order is the order of first insertion. *)
Definition uniqueTypes (events : list SafetyEvent) : list string :=
  fold_left (fun set t => if bool_decide (t ∈ set) then set else set ++ [t])%list
            (map type events) [].

(** The values of a list in the order of their first occurrence. *)
Fixpoint first_occurrences (ts : list string) : list string :=
  match ts with
  | [] => []
  | t :: ts' => t :: filter (fun t' => t' <> t) (first_occurrences ts')
  end.

(** [severityCounts], lines 33-36: the object [acc] as a finite map from
    its keys. *)
Definition severityCounts (events : list SafetyEvent) : gmap Z nat :=
  fold_left
    (fun acc event => <[severity event := (default 0 (acc !! severity event) + 1)%nat]> acc)
    events ∅.

(** The number on the tile of a level, line 48: [severityCounts[severity] || 0]. *)
Definition tile (events : list SafetyEvent) (level : Z) : nat :=
  default 0%nat (severityCounts events !! level).

(** ** [Topbar.jsx] *)

(** The own properties of the object literals of lines 17-31. *)
Definition statusColors : list (string * string) :=
  [("CONNECTED", "bg-green-500"); ("CONNECTING", "bg-yellow-500");
   ("DISCONNECTED", "bg-red-500"); ("CLOSING", "bg-orange-500");
   ("UNKNOWN", "bg-gray-500")].

Definition statusLabels : list (string * string) :=
  [("CONNECTED", "Connected"); ("CONNECTING", "Connecting...");
   ("DISCONNECTED", "Disconnected"); ("CLOSING", "Closing...");
   ("UNKNOWN", "Unknown")].

(** [object[key]] for a key among the own properties; [None] is
    [undefined]. *)
Definition property (object : list (string * string)) (key : string) : option string :=
  snd <$> List.find (fun entry => String.eqb (fst entry) key) object.

(** The [connectionStatus] state: ['DISCONNECTED'] at first (line 5), then
    what the last tick of the interval of lines 9-12 has read. *)
Definition Topbar_initial : string := "DISCONNECTED".

Definition Topbar_tick {Data U} (w : World Data U) : string :=
  getConnectionState w.

(** * Properties *)

Section Properties.

Context {Data U : Type}.
Implicit Types (w v : World Data U) (rt : Runtime Data U) (d : Data).
Implicit Types (cb c : Callback) (l : list (option Callback)) (s : WebSocket).
Implicit Types (i j fuel : nat) (es : list Effect) (tr : list (Invocation Data)).

(** Opens a world into its fields, named after the source where they
    have a name there. *)
Ltac fields_of w :=
  let wsr := fresh "wsr" in let ls := fresh "ls" in let ra := fresh "ra" in
  let mx := fresh "mx" in let dl := fresh "dl" in let ic := fresh "ic" in
  let pi := fresh "pi" in let sk := fresh "sk" in let tm := fresh "tm" in
  let nt := fresh "nt" in let co := fresh "co" in let ca := fresh "ca" in
  let us := fresh "us" in
  destruct w as [[wsr ls ra mx dl ic pi] sk tm nt co ca us].

(** ** Timers and sockets *)

Lemma lookup_timer_clearTimer id w : lookup_timer id (clearTimer id w) = None.
Proof.
  unfold lookup_timer, clearTimer; simpl.
  destruct (list_find _ _) as [[i [id' t]]|] eqn:Hfind; [|done].
  apply list_find_Some in Hfind as (Hl & Hid & _); simpl in Hid.
  apply list_elem_of_lookup_2, list_elem_of_filter in Hl as [Hne _].
  simpl in Hne. congruence.
Qed.

Lemma lookup_timer_Some id t w :
  lookup_timer id w = Some t -> (id, t) ∈ timers w.
Proof.
  unfold lookup_timer.
  destruct (list_find _ _) as [[i [id' t']]|] eqn:Hfind; [|done].
  intros [= <-]. apply list_find_Some in Hfind as (Hl & Hid & _).
  simpl in Hid; subst. by eapply list_elem_of_lookup_2.
Qed.

Lemma list_find_filter {A} (P Q : A -> Prop)
    `{!forall x, Decision (P x)} `{!forall x, Decision (Q x)} (xs : list A) :
  (forall x, P x -> Q x) ->
  snd <$> list_find P (filter Q xs) = snd <$> list_find P xs.
Proof.
  intros HPQ. induction xs as [|x xs IH]; [done|].
  rewrite filter_cons. destruct (decide (Q x)) as [HQ|HQ]; simpl.
  - destruct (decide (P x)); [done|].
    rewrite <- !option_fmap_compose. apply IH.
  - rewrite decide_False by (intros HP; by apply HQ, HPQ).
    rewrite <- option_fmap_compose. apply IH.
Qed.

Lemma lookup_timer_clear_other id p w :
  id <> p -> lookup_timer id (clearTimer p w) = lookup_timer id w.
Proof.
  intros Hne. unfold lookup_timer, clearTimer; simpl.
  assert (Hfind := list_find_filter (fun e : positive * Timer => e.1 = id)
                     (fun e => e.1 <> p) (timers w)).
  assert (Himp : forall e : positive * Timer, e.1 = id -> e.1 <> p) by congruence.
  specialize (Hfind Himp).
  destruct (list_find _ (filter _ _)) as [[i [a t]]|];
    destruct (list_find _ (timers w)) as [[i' [a' t']]|]; simpl in Hfind;
    congruence.
Qed.

Lemma lookup_timer_ext id w1 w2 :
  timers w1 = timers w2 -> lookup_timer id w1 = lookup_timer id w2.
Proof. unfold lookup_timer. by intros ->. Qed.

Lemma upd_socket_sockets h f w s :
  sockets w !! h = Some s -> sockets (upd_socket h f w) = <[h := f s]> (sockets w).
Proof. intros H. unfold upd_socket. by rewrite H. Qed.

Lemma upd_socket_lookup h f w s :
  sockets w !! h = Some s -> sockets (upd_socket h f w) !! h = Some (f s).
Proof.
  intros H. rewrite (upd_socket_sockets _ _ _ _ H).
  apply list_lookup_insert_eq. by eapply lookup_lt_Some.
Qed.

Lemma upd_socket_this h f w : this (upd_socket h f w) = this w.
Proof. unfold upd_socket. by destruct (sockets w !! h). Qed.

Lemma upd_socket_timers h f w : timers (upd_socket h f w) = timers w.
Proof. unfold upd_socket. by destruct (sockets w !! h). Qed.

Lemma upd_socket_length h f w : length (sockets (upd_socket h f w)) = length (sockets w).
Proof.
  unfold upd_socket. destruct (sockets w !! h); [|done].
  simpl. by rewrite length_insert.
Qed.

Lemma WebSocket_close_not_live s : live (WebSocket_close s) = false.
Proof. destruct s as [u [] fr]; reflexivity. Qed.

(** ** [disconnect] *)

Lemma disconnect_flag w : isIntentionallyClosed (this (disconnect w)) = true.
Proof.
  fields_of w.
  unfold disconnect; simpl. destruct pi, wsr; simpl; by rewrite ?upd_socket_this.
Qed.

Lemma disconnect_ws w : ws (this (disconnect w)) = None.
Proof.
  fields_of w.
  unfold disconnect; simpl. by destruct pi, wsr.
Qed.

Lemma disconnect_timers w : timers (disconnect w) = cleared w.
Proof.
  fields_of w.
  unfold disconnect, cleared; simpl. destruct pi, wsr; simpl; by rewrite ?upd_socket_timers.
Qed.

Lemma disconnect_sockets w :
  sockets (disconnect w)
  = match ws (this w) with
    | Some h => sockets (upd_socket h WebSocket_close w)
    | None => sockets w
    end.
Proof.
  fields_of w.
  unfold disconnect, upd_socket; simpl.
  destruct pi, wsr as [h|]; simpl; try done; by destruct (sk !! h).
Qed.

Lemma disconnect_state w : getConnectionState (disconnect w) = "DISCONNECTED".
Proof. unfold getConnectionState. by rewrite disconnect_ws. Qed.

(** ** The socket handlers *)

Lemma same_state_print e w : same_state w (print e w).
Proof. by repeat split. Qed.

Lemma same_state_getConnectionState w w' :
  same_state w w' -> getConnectionState w' = getConnectionState w.
Proof. intros (Ht & Hs & _). unfold getConnectionState. by rewrite Ht, Hs. Qed.

(** C10.  When the browser delivers an [error] event on a socket, the
    handler only writes to the console: the fields of the client (session
    reference, flag, counter, [pingInterval], listener set), the sockets,
    the timer table, the listener history and hence the connection state
    are what they were; in particular no reconnection has been scheduled. *)
Theorem error_event_changes_nothing rt fuel h w w' :
  step rt fuel (Ev_error h) w = Some w' ->
  same_state w w'
  /\ getConnectionState w' = getConnectionState w
  /\ console w' = (console w ++ [console_error "WebSocket error:"])%list
  /\ reconnect_pending w' = reconnect_pending w.
Proof.
  simpl. destruct (sockets w !! h); [|done]. intros [= <-].
  assert (Hs : same_state w (onerror w)) by apply same_state_print.
  split_and!; [done|by apply same_state_getConnectionState|done|].
  unfold reconnect_pending. by destruct Hs as (_ & _ & -> & _).
Qed.

(** C6.  A frame that is not the literal pong and that [JSON.parse]
    rejects: the handler returns (the SyntaxError is caught and logged), no
    listener has been called, and client, sockets, timers and connection
    state are unchanged. *)
Theorem malformed_payload_dropped rt fuel payload w :
  payload <> "pong" ->
  JSON_parse rt payload = None ->
  exists w', onmessage rt fuel payload w = Done w'
    /\ same_state w w'
    /\ getConnectionState w' = getConnectionState w
    /\ console w' = (console w ++ [console_error "Error parsing WebSocket message:"])%list.
Proof.
  intros Hpong Hparse. unfold onmessage.
  destruct (String.eqb_spec payload "pong") as [|_]; [done|].
  rewrite Hparse. eexists; split; [done|].
  split_and!; [apply same_state_print|apply same_state_getConnectionState, same_state_print|done].
Qed.

(** The heartbeat closure sends the probe exactly when the session is open. *)
Lemma heartbeat_open w :
  getConnectionState w = "CONNECTED" ->
  exists h s, ws (this w) = Some h /\ sockets w !! h = Some s /\ readyState s = OPEN
    /\ heartbeat w = set_sockets (<[h := WebSocket_send "ping" s]> (sockets w)) w.
Proof.
  unfold getConnectionState, heartbeat, ws_readyState_is, upd_socket.
  destruct (ws (this w)) as [h|]; [|done].
  destruct (sockets w !! h) as [s|] eqn:Hs; simpl; [|done].
  destruct (readyState s) eqn:Hr; try done. intros _.
  exists h, s. by rewrite bool_decide_eq_true_2.
Qed.

Lemma heartbeat_not_open w :
  getConnectionState w <> "CONNECTED" -> heartbeat w = w.
Proof.
  unfold getConnectionState, heartbeat, ws_readyState_is.
  destruct (ws (this w)) as [h|]; [|done].
  destruct (sockets w !! h) as [s|] eqn:Hs; simpl; [|done].
  destruct (readyState s) eqn:Hr; try done.
Qed.

Lemma upd_socket_nextTimer h f w : nextTimer (upd_socket h f w) = nextTimer w.
Proof. unfold upd_socket. by destruct (sockets w !! h). Qed.

Lemma onopen_spec w :
  reconnectAttempts (this (onopen w)) = 0
  /\ pingInterval (this (onopen w)) = Some (nextTimer w)
  /\ timers (onopen w) = (timers w ++ [(nextTimer w, Interval 30000)])%list
  /\ sockets (onopen w) = sockets w.
Proof. done. Qed.

(** C8.  When a socket reports a successful open, the handler sets the
    reconnect counter to 0 and registers one new interval timer with
    period 30000 ms, remembered in [pingInterval].  Whenever an interval
    timer fires, the event loop takes a step and the timer stays armed
    with its period.  If the session is open at that moment, the step
    changes one thing: the frames sent on the session's socket are those
    sent before followed by the frame "ping".  If the session is not
    open, the step changes nothing, so no frame is sent on any socket. *)
Theorem open_resets_counter_and_starts_heartbeat rt fuel h w w' :
  step rt fuel (Ev_open h) w = Some w' ->
  reconnectAttempts (this w') = 0
  /\ pingInterval (this w') = Some (nextTimer w)
  /\ timers w' = (timers w ++ [(nextTimer w, Interval 30000)])%list
  /\ (exists s, sockets w !! h = Some s /\ readyState s = CONNECTING
        /\ sockets w' = <[h := set_readyState OPEN s]> (sockets w))
  /\ (forall v id period, lookup_timer id v = Some (Interval period) ->
        exists v', step rt fuel (Ev_timer id) v = Some v'
          /\ lookup_timer id v' = Some (Interval period)
          /\ (getConnectionState v = "CONNECTED" ->
               exists hv sv, ws (this v) = Some hv /\ sockets v !! hv = Some sv
                 /\ sockets v' !! hv
                    = Some (mkWebSocket (url sv) OPEN (sent sv ++ ["ping"]))
                 /\ v' = set_sockets
                           (<[hv := mkWebSocket (url sv) OPEN (sent sv ++ ["ping"])]>
                              (sockets v)) v)
          /\ (getConnectionState v <> "CONNECTED" -> v' = v)).
Proof.
  simpl. destruct (sockets w !! h) as [s|] eqn:Hs; [|done].
  destruct (readyState s) eqn:Hr; try done. intros [= <-].
  destruct (onopen_spec (upd_socket h (set_readyState OPEN) w)) as (Hra & Hpi & Htm & Hsk).
  rewrite upd_socket_timers, upd_socket_nextTimer in *.
  split_and!; try done.
  - exists s. by rewrite Hsk, (upd_socket_sockets _ _ _ _ Hs).
  - intros v id period Hid. exists (heartbeat v). rewrite Hid.
    destruct (decide (getConnectionState v = "CONNECTED")) as [Hc|Hc].
    + destruct (heartbeat_open _ Hc) as (hv & sv & Hws & Hsv & Hopen & Hbeat).
      unfold WebSocket_send in Hbeat. rewrite Hopen in Hbeat.
      split_and!; [done| |intros _|done].
      * rewrite <- Hid. apply lookup_timer_ext. by rewrite Hbeat.
      * exists hv, sv. split_and!; [done|done| |done].
        rewrite Hbeat. simpl. apply list_lookup_insert_eq. by eapply lookup_lt_Some.
    + rewrite (heartbeat_not_open _ Hc). by split_and!.
Qed.

(** ** The listener set *)

Lemma Set_add_lookup_old cb l i e :
  l !! i = Some e -> Set_add cb l !! i = Some e.
Proof.
  intros H. unfold Set_add. case_bool_decide; [done|].
  by apply lookup_app_l_Some.
Qed.

Lemma Set_add_lookup_inv cb l i c :
  Set_add cb l !! i = Some (Some c) ->
  l !! i = Some (Some c) \/ (c = cb /\ i = length l /\ Some cb ∉ l).
Proof.
  unfold Set_add. case_bool_decide as Hin; [by left|].
  intros H. destruct (decide (i < length l)%nat) as [Hlt|Hge].
  - left. by rewrite lookup_app_l in H.
  - right. rewrite lookup_app_r in H by lia.
    destruct (i - length l)%nat as [|k] eqn:Hk; simpl in H; [|by destruct k].
    injection H as <-. split_and!; [done|lia|done].
Qed.

Lemma Set_delete_lookup_inv cb l i c :
  Set_delete cb l !! i = Some (Some c) -> l !! i = Some (Some c).
Proof.
  revert i. induction l as [|e l IH]; intros i; simpl; [done|].
  case_bool_decide; destruct i; simpl; try done. apply IH.
Qed.

Lemma Set_delete_lookup_other cb l i c :
  c <> cb -> l !! i = Some (Some c) -> Set_delete cb l !! i = Some (Some c).
Proof.
  intros Hne. revert i. induction l as [|e l IH]; intros i; simpl; [done|].
  case_bool_decide as He; destruct i; simpl; try done.
  - intros [= ->]. congruence.
  - apply IH.
Qed.

Lemma Set_add_wf cb l : Set_wf l -> Set_wf (Set_add cb l).
Proof.
  intros Hwf i j c Hi Hj.
  apply Set_add_lookup_inv in Hi as [Hi|(-> & -> & Hni)];
    apply Set_add_lookup_inv in Hj as [Hj|(Hc & -> & Hnj)]; subst.
  - by eapply Hwf.
  - exfalso. apply Hnj. by eapply list_elem_of_lookup_2.
  - exfalso. apply Hni. by eapply list_elem_of_lookup_2.
  - done.
Qed.

Lemma Set_delete_wf cb l : Set_wf l -> Set_wf (Set_delete cb l).
Proof.
  intros Hwf i j c Hi%Set_delete_lookup_inv Hj%Set_delete_lookup_inv.
  by eapply Hwf.
Qed.

Lemma Set_wf_tail e l : Set_wf (e :: l) -> Set_wf l.
Proof. intros Hwf i j cb Hi Hj. by injection (Hwf (S i) (S j) cb Hi Hj). Qed.

(** After [delete], the value is no element any more. *)
Lemma Set_delete_gone cb l : Set_wf l -> Some cb ∉ Set_delete cb l.
Proof.
  induction l as [|e l IH]; intros Hwf; simpl; [apply not_elem_of_nil|].
  case_bool_decide as He.
  - subst e. intros [[=]|[j Hj]%list_elem_of_lookup_1]%elem_of_cons.
    by specialize (Hwf 0%nat (S j) cb eq_refl Hj).
  - intros [Heq|Hin]%elem_of_cons; [congruence|].
    by apply (IH (Set_wf_tail _ _ Hwf)).
Qed.

(** [delete] of a value that is no element changes nothing, so an
    unsubscribe handle may be called again. *)
Lemma Set_delete_absent cb l : Some cb ∉ l -> Set_delete cb l = l.
Proof.
  induction l as [|e l IH]; intros Hout; simpl; [done|].
  apply not_elem_of_cons in Hout as [Hne Hout].
  rewrite bool_decide_eq_false_2 by congruence. by rewrite IH.
Qed.

Lemma apply_effects_wf es l : Set_wf l -> Set_wf (apply_effects es l).
Proof.
  revert l. induction es as [|[c|c] es IH]; intros l Hwf; simpl; [done|..];
    apply IH; [by apply Set_add_wf|by apply Set_delete_wf].
Qed.

(** A listener that no body unsubscribes keeps its slot. *)
Lemma apply_effects_keeps es l i cb :
  Unsubscribe cb ∉ es -> l !! i = Some (Some cb) ->
  apply_effects es l !! i = Some (Some cb).
Proof.
  revert l. induction es as [|[c|c] es IH]; intros l Hes Hl; simpl; [done|..].
  - apply IH; [set_solver|]. by apply Set_add_lookup_old.
  - apply IH; [set_solver|]. apply Set_delete_lookup_other; [|done].
    intros ->. set_solver.
Qed.

(** A value that no body subscribes does not become an element. *)
Lemma apply_effects_absent es l cb :
  Subscribe cb ∉ es -> Some cb ∉ l -> Some cb ∉ apply_effects es l.
Proof.
  revert l. induction es as [|[c|c] es IH]; intros l Hes Hl; simpl; [done|..].
  - apply IH; [set_solver|]. unfold Set_add. case_bool_decide; [done|].
    rewrite elem_of_app, list_elem_of_singleton. intros [?|[= ->]]; set_solver.
  - apply IH; [set_solver|]. intros [i Hi]%list_elem_of_lookup_1.
    apply Set_delete_lookup_inv in Hi. apply Hl. by eapply list_elem_of_lookup_2.
Qed.

(** ** One listener call *)

Lemma call_listener_listeners rt c d w :
  listeners (this (call_listener rt c d w))
  = apply_effects (effects_of rt c d (user w)) (listeners (this w)).
Proof.
  unfold call_listener, effects_of.
  by destruct (listener_body rt c d (user w)) as [[u' es] []].
Qed.

Lemma call_listener_calls rt c d w :
  calls (call_listener rt c d w) = (calls w ++ [invocation_of rt c d (user w)])%list.
Proof.
  unfold call_listener, invocation_of, effects_of.
  by destruct (listener_body rt c d (user w)) as [[u' es] []].
Qed.

Lemma call_listener_console rt c d w :
  console (call_listener rt c d w)
  = (console w ++ match snd (listener_body rt c d (user w)) with
                  | Throw => [console_error "Error in WebSocket listener:"]
                  | Normal => []
                  end)%list.
Proof.
  unfold call_listener.
  destruct (listener_body rt c d (user w)) as [[u' es] []]; simpl; [|done].
  by rewrite app_nil_r.
Qed.

Lemma same_session_refl w : same_session w w.
Proof. by repeat split. Qed.

Lemma same_session_trans w1 w2 w3 :
  same_session w1 w2 -> same_session w2 w3 -> same_session w1 w3.
Proof. intros (?&?&?&?) (?&?&?&?). repeat split; congruence. Qed.

Lemma same_session_getConnectionState w w' :
  same_session w w' -> getConnectionState w' = getConnectionState w.
Proof.
  intros (Ht & Hs & _). unfold getConnectionState. rewrite Hs.
  by replace (ws (this w')) with (ws (this w)) by (by injection Ht).
Qed.

Lemma call_listener_session rt c d w : same_session w (call_listener rt c d w).
Proof.
  unfold call_listener.
  by destruct (listener_body rt c d (user w)) as [[u' es] []].
Qed.

(** ** The dispatch loop *)

Lemma forEach_unfold rt fuel d j w :
  forEach rt fuel d j w =
  match listeners (this w) !! j with
  | None => Done w
  | Some e =>
      match fuel with
      | O => OutOfFuel w
      | S fuel' =>
          match e with
          | None => forEach rt fuel' d (S j) w
          | Some c => forEach rt fuel' d (S j) (call_listener rt c d w)
          end
      end
  end.
Proof. by destruct fuel. Qed.

Lemma new_calls_app w w' tr :
  calls w' = (calls w ++ tr)%list -> new_calls w w' = tr.
Proof. intros H. unfold new_calls. rewrite H. apply drop_app_length. Qed.

(** The loop touches neither the transport nor the connection fields. *)
Lemma forEach_session rt d fuel : forall j w,
  same_session w (world_of (forEach rt fuel d j w)).
Proof.
  induction fuel as [|fuel IH]; intros j w; rewrite forEach_unfold;
    destruct (listeners (this w) !! j) as [[c|]|]; simpl;
    try apply same_session_refl; [|apply IH].
  eapply same_session_trans; [apply call_listener_session|apply IH].
Qed.

(** What the loop adds to the history and to the console: calls with the
    dispatched message, and one error line per call that threw. *)
Lemma forEach_history rt d fuel : forall j w,
  exists tr,
    calls (world_of (forEach rt fuel d j w)) = (calls w ++ tr)%list
    /\ Forall (fun x => inv_data x = d) tr
    /\ console (world_of (forEach rt fuel d j w))
       = (console w ++ map (fun _ => console_error "Error in WebSocket listener:")
                          (thrown tr))%list.
Proof.
  induction fuel as [|fuel IH]; intros j w; rewrite forEach_unfold;
    destruct (listeners (this w) !! j) as [[c|]|]; simpl;
    try (exists []; by rewrite !app_nil_r); [|apply IH].
  destruct (IH (S j) (call_listener rt c d w)) as (tr & Hc & Hd & Hl).
  exists (invocation_of rt c d (user w) :: tr).
  rewrite Hc, Hl, call_listener_calls, call_listener_console, <- !app_assoc.
  split_and!; [done|by constructor|].
  f_equal. unfold thrown. rewrite filter_cons. simpl.
  by destruct (snd (listener_body rt c d (user w))).
Qed.

Lemma forEach_wf rt d fuel : forall j w,
  Set_wf (listeners (this w)) ->
  Set_wf (listeners (this (world_of (forEach rt fuel d j w)))).
Proof.
  induction fuel as [|fuel IH]; intros j w Hwf; rewrite forEach_unfold;
    destruct (listeners (this w) !! j) as [[c|]|]; simpl; try done; apply IH; [|done].
  rewrite call_listener_listeners. by apply apply_effects_wf.
Qed.

Lemma invocations_cons cb x tr :
  invocations cb (x :: tr)
  = ((if decide (inv_cb x = cb) then 1 else 0) + invocations cb tr)%nat.
Proof. unfold invocations. rewrite filter_cons. by case_decide. Qed.

Lemma forEach_new_calls_step rt d fuel j c w :
  new_calls w (world_of (forEach rt fuel d j (call_listener rt c d w)))
  = invocation_of rt c d (user w)
    :: new_calls (call_listener rt c d w)
                 (world_of (forEach rt fuel d j (call_listener rt c d w))).
Proof.
  destruct (forEach_history rt d fuel j (call_listener rt c d w)) as (tr & Hc & _).
  rewrite (new_calls_app _ _ _ Hc).
  apply new_calls_app. by rewrite Hc, call_listener_calls, <- app_assoc.
Qed.

Lemma new_calls_refl w : new_calls w w = [].
Proof. unfold new_calls. apply drop_all. Qed.

(** A listener that sits in slot [i] when the loop is at slot [j], and
    that no call of the loop unsubscribes, is called once if the loop has
    not passed its slot yet, and not again if it has. *)
Lemma forEach_once rt d cb : forall fuel j w i,
  Set_wf (listeners (this w)) ->
  listeners (this w) !! i = Some (Some cb) ->
  (i < j \/ i < j + fuel)%nat ->
  not_unsubscribed cb (new_calls w (world_of (forEach rt fuel d j w))) ->
  invocations cb (new_calls w (world_of (forEach rt fuel d j w)))
  = if decide (j <= i)%nat then 1%nat else 0%nat.
Proof.
  induction fuel as [|fuel IH]; intros j w i Hwf Hi Hfuel;
    rewrite forEach_unfold; destruct (listeners (this w) !! j) as [[c|]|] eqn:Hj; simpl;
    rewrite ?new_calls_refl; intros Hkeep.
  - case_decide; [lia|done].
  - case_decide; [lia|done].
  - apply lookup_lt_Some in Hi. apply lookup_ge_None in Hj. case_decide; [lia|done].
  - rewrite forEach_new_calls_step in Hkeep |- *.
    apply Forall_cons in Hkeep as [Hhead Hkeep]; simpl in Hhead.
    rewrite invocations_cons; simpl.
    rewrite (IH (S j) _ i).
    + destruct (decide (j = i)) as [->|Hne].
      * assert (c = cb) as -> by congruence.
        rewrite decide_True by done. repeat case_decide; lia.
      * rewrite decide_False; [repeat case_decide; lia|].
        intros ->. apply Hne. by eapply Hwf.
    + rewrite call_listener_listeners. by apply apply_effects_wf.
    + rewrite call_listener_listeners. by apply apply_effects_keeps.
    + lia.
    + done.
  - assert (j <> i) by congruence.
    rewrite (IH (S j) w i); [repeat case_decide; lia|done|done|lia|done].
  - apply lookup_lt_Some in Hi. apply lookup_ge_None in Hj. case_decide; [lia|done].
Qed.

(** A value that is no element when the loop starts, and that no call of
    the loop subscribes, is not called. *)
Lemma forEach_never rt d cb : forall fuel j w,
  Some cb ∉ listeners (this w) ->
  not_subscribed cb (new_calls w (world_of (forEach rt fuel d j w))) ->
  invocations cb (new_calls w (world_of (forEach rt fuel d j w))) = 0%nat.
Proof.
  induction fuel as [|fuel IH]; intros j w Hout;
    rewrite forEach_unfold; destruct (listeners (this w) !! j) as [[c|]|] eqn:Hj; simpl;
    rewrite ?new_calls_refl; intros Hkeep; try done; [|by apply IH].
  rewrite forEach_new_calls_step in Hkeep |- *.
  apply Forall_cons in Hkeep as [Hhead Hkeep]; simpl in Hhead.
  rewrite invocations_cons; simpl.
  rewrite IH; [| |done].
  - rewrite decide_False; [done|]. intros ->. apply Hout. by eapply list_elem_of_lookup_2.
  - rewrite call_listener_listeners. by apply apply_effects_absent.
Qed.

(** When no call of the loop touches the set, the loop ends after one
    pass over the slots and has called the elements from slot [j] on, in
    order. *)
Lemma forEach_untouched rt d : forall fuel j w,
  (length (listeners (this w)) <= j + fuel)%nat ->
  untouched (new_calls w (world_of (forEach rt fuel d j w))) ->
  exists w', forEach rt fuel d j w = Done w'
    /\ listeners (this w') = listeners (this w)
    /\ map inv_cb (new_calls w w') = Set_elements (drop j (listeners (this w))).
Proof.
  induction fuel as [|fuel IH]; intros j w Hfuel;
    rewrite forEach_unfold; destruct (listeners (this w) !! j) as [[c|]|] eqn:Hj;
    simpl; intros Hquiet.
  - apply lookup_lt_Some in Hj. lia.
  - apply lookup_lt_Some in Hj. lia.
  - exists w. rewrite new_calls_refl, drop_ge; [done|by apply lookup_ge_None].
  - rewrite forEach_new_calls_step in Hquiet.
    apply Forall_cons in Hquiet as [Hhead Hquiet]; simpl in Hhead.
    assert (Hl : listeners (this (call_listener rt c d w)) = listeners (this w)).
    { by rewrite call_listener_listeners, Hhead. }
    destruct (IH (S j) (call_listener rt c d w)) as (w' & Hrun & Hkeep & Hcalls);
      [rewrite Hl; lia|done|].
    exists w'. rewrite Hrun. split_and!; [done|congruence|].
    pose proof (forEach_new_calls_step rt d fuel (S j) c w) as Hstep.
    rewrite Hrun in Hstep; simpl in Hstep. rewrite Hstep; simpl.
    rewrite Hcalls, Hl, (drop_S _ _ _ Hj). done.
  - destruct (IH (S j) w) as (w' & Hrun & Hkeep & Hcalls); [lia|done|].
    exists w'. rewrite Hrun, Hcalls, (drop_S _ _ _ Hj). done.
  - exists w. rewrite new_calls_refl, drop_ge; [done|by apply lookup_ge_None].
Qed.

(** Listener bodies that never touch the set leave every history
    untouched. *)
Lemma passive_untouched rt d : passive rt -> forall fuel j w,
  untouched (new_calls w (world_of (forEach rt fuel d j w))).
Proof.
  intros Hpassive. induction fuel as [|fuel IH]; intros j w;
    rewrite forEach_unfold; destruct (listeners (this w) !! j) as [[c|]|] eqn:Hj;
    simpl; rewrite ?new_calls_refl; try (by constructor); [|apply IH].
  rewrite forEach_new_calls_step. constructor; [apply Hpassive|apply IH].
Qed.

(** Whether a body throws or returns makes no difference to what the
    loop does next. *)
Lemma call_listener_silence rt c d w1 w2 :
  forget_errors w1 = forget_errors w2 ->
  forget_errors (call_listener rt c d w1)
  = forget_errors (call_listener (silence rt) c d w2).
Proof.
  unfold forget_errors. intros [= Ht Hs Htm Hn Hc Hu].
  unfold call_listener, silence; simpl. rewrite Hu.
  destruct (listener_body rt c d (user w2)) as [[u' es] k]; simpl.
  destruct k; simpl; rewrite ?Ht, ?Hs, ?Htm, ?Hn, !map_app, ?Hc; done.
Qed.

Lemma forEach_silence rt d fuel : forall j w1 w2,
  forget_errors w1 = forget_errors w2 ->
  forget_errors (world_of (forEach rt fuel d j w1))
  = forget_errors (world_of (forEach (silence rt) fuel d j w2))
  /\ is_done (forEach rt fuel d j w1) = is_done (forEach (silence rt) fuel d j w2).
Proof.
  induction fuel as [|fuel IH]; intros j w1 w2 Heq;
    rewrite (forEach_unfold rt _ d j w1), (forEach_unfold (silence rt) _ d j w2);
    assert (Hl : listeners (this w1) = listeners (this w2))
      by (unfold forget_errors in Heq; congruence);
    rewrite Hl; destruct (listeners (this w2) !! j) as [[c|]|]; simpl; try done.
  - apply IH. by apply call_listener_silence.
  - by apply IH.
Qed.

(** ** Reachable worlds *)

Lemma connect_listeners rt w : listeners (this (connect rt w)) = listeners (this w).
Proof. unfold connect. by destruct (ws_readyState_is OPEN w). Qed.

Lemma disconnect_listeners w : listeners (this (disconnect w)) = listeners (this w).
Proof.
  fields_of w.
  unfold disconnect; simpl. destruct pi, wsr; simpl; by rewrite ?upd_socket_this.
Qed.

Lemma heartbeat_listeners w : listeners (this (heartbeat w)) = listeners (this w).
Proof.
  unfold heartbeat. destruct (ws_readyState_is OPEN w); [|done].
  destruct (ws (this w)); [|done]. by rewrite upd_socket_this.
Qed.

Lemma onclose_listeners w : listeners (this (onclose w)) = listeners (this w).
Proof.
  fields_of w.
  unfold onclose; simpl.
  destruct pi, ic; simpl; try done; by destruct (Z.ltb_spec ra mx).
Qed.

Lemma step_Set_wf rt fuel e w w' :
  Set_wf (listeners (this w)) -> step rt fuel e w = Some w' ->
  Set_wf (listeners (this w')).
Proof.
  intros Hwf Hstep.
  destruct e as [| |cb|cb|h|h payload|h|h|id]; simpl in Hstep.
  - injection Hstep as <-. by rewrite connect_listeners.
  - injection Hstep as <-. by rewrite disconnect_listeners.
  - injection Hstep as <-. by apply Set_add_wf.
  - injection Hstep as <-. by apply Set_delete_wf.
  - destruct (sockets w !! h) as [s|]; [|done].
    destruct (readyState s); try done. injection Hstep as <-.
    by simpl; rewrite upd_socket_this.
  - destruct (sockets w !! h) as [s|]; [|done].
    destruct (readyState s); try done.
    destruct (onmessage rt fuel payload w) as [v|v] eqn:Hmsg; [|done].
    injection Hstep as <-. unfold onmessage in Hmsg.
    destruct (String.eqb payload "pong"); [by injection Hmsg as <-|].
    destruct (JSON_parse rt payload) as [d|]; [|by injection Hmsg as <-].
    pose proof (forEach_wf rt d fuel 0 w Hwf) as Hwf'.
    unfold notifyListeners in Hmsg. by rewrite Hmsg in Hwf'.
  - destruct (sockets w !! h); [|done]. by injection Hstep as <-.
  - destruct (sockets w !! h) as [s|]; [|done].
    destruct (readyState s); try done; injection Hstep as <-;
      by rewrite onclose_listeners, upd_socket_this.
  - destruct (lookup_timer id w) as [[period|delay]|]; [| |done]; injection Hstep as <-.
    + by rewrite heartbeat_listeners.
    + by rewrite connect_listeners.
Qed.

(** In every reachable world the listener set holds no value twice. *)
Lemma reachable_Set_wf rt w : reachable rt w -> Set_wf (listeners (this w)).
Proof.
  intros (u & fuel & evs & Hrun).
  assert (Hinit : Set_wf (listeners (this (init (Data:=Data) u))))
    by (by intros i j cb Hi; destruct i).
  revert Hinit Hrun. generalize (init (Data:=Data) u).
  induction evs as [|e evs IH]; intros v Hv Hrun; simpl in Hrun.
  - by injection Hrun as <-.
  - destruct (step rt fuel e v) as [v1|] eqn:Hstep; [|done].
    eapply IH; [|done]. by eapply step_Set_wf.
Qed.

(** ** Dispatch *)

(** From the first slot: a registered listener that no call unsubscribes
    is called exactly once. *)
Lemma dispatch_once rt fuel d w cb i :
  Set_wf (listeners (this w)) ->
  listeners (this w) !! i = Some (Some cb) ->
  (i < fuel)%nat ->
  not_unsubscribed cb (new_calls w (world_of (forEach rt fuel d 0 w))) ->
  invocations cb (new_calls w (world_of (forEach rt fuel d 0 w))) = 1%nat.
Proof.
  intros Hwf Hi Hfuel Hkeep.
  rewrite (forEach_once rt d cb fuel 0 w i); [|done|done|lia|done].
  rewrite decide_True; [done|lia].
Qed.

(** C3 (as amended).  Take any world reached by a sequence of calls and
    events (subscribes, unsubscribes, dispatches, ...) and dispatch [d] in
    it.  Every call made carries [d].  A listener that is registered when
    the dispatch starts and that no callback unsubscribes during the
    dispatch is called exactly once (as soon as the loop has had the fuel
    to reach its slot).  A callback that is not registered when the
    dispatch starts, for instance because it was removed before, and that
    no callback subscribes during the dispatch, is not called.  And when
    no callback subscribes or unsubscribes during the dispatch, the
    dispatch returns after one pass, the set is unchanged, and the calls
    made are exactly the registered listeners, in order, once each.
    Calling an unsubscribe handle removes its listener from the set, and
    calling it again changes nothing. *)
Theorem dispatch_calls_each_registered_listener_once rt fuel d w :
  reachable rt w ->
  let w' := world_of (notifyListeners rt fuel d w) in
  (forall cb, ~ registered cb (unsubscribe cb w)
              /\ unsubscribe cb (unsubscribe cb w) = unsubscribe cb w)
  /\ Forall (fun x => inv_data x = d) (new_calls w w')
  /\ (forall cb i, listeners (this w) !! i = Some (Some cb) -> (i < fuel)%nat ->
        not_unsubscribed cb (new_calls w w') ->
        invocations cb (new_calls w w') = 1%nat)
  /\ (forall cb, ~ registered cb w ->
        not_subscribed cb (new_calls w w') ->
        invocations cb (new_calls w w') = 0%nat)
  /\ ((length (listeners (this w)) <= fuel)%nat ->
      untouched (new_calls w w') ->
        notifyListeners rt fuel d w = Done w'
        /\ listeners (this w') = listeners (this w)
        /\ map inv_cb (new_calls w w') = Set_elements (listeners (this w))
        /\ forall cb, registered cb w -> invocations cb (new_calls w w') = 1%nat).
Proof.
  intros Hwf%reachable_Set_wf w'. subst w'. unfold notifyListeners. split_and!.
  - intros cb.
    assert (Hgone : ~ registered cb (unsubscribe cb w)) by (by apply Set_delete_gone).
    split; [done|]. unfold unsubscribe, upd_this; simpl.
    rewrite (Set_delete_absent cb (Set_delete cb _)); [done|by apply Set_delete_gone].
  - destruct (forEach_history rt d fuel 0 w) as (tr & Hc & Hd & _).
    by rewrite (new_calls_app _ _ _ Hc).
  - intros cb i Hi Hfuel Hkeep. by apply (dispatch_once rt fuel d w cb i).
  - intros cb Hout Hkeep. by apply forEach_never.
  - intros Hfuel Hquiet.
    destruct (forEach_untouched rt d fuel 0 w) as (w' & Hrun & Hkeep & Hcalls); [lia|done|].
    rewrite Hrun in *; simpl in *. split_and!; try done.
    intros cb [i Hi]%list_elem_of_lookup_1.
    assert (Hlt : (i < fuel)%nat) by (apply lookup_lt_Some in Hi; lia).
    pose proof (dispatch_once rt fuel d w cb i Hwf Hi Hlt) as Honce.
    rewrite Hrun in Honce. apply Honce.
    eapply Forall_impl; [exact Hquiet|]. simpl. intros x ->. apply not_elem_of_nil.
Qed.

(** C5 (as amended).  The frame "pong" is discarded: the handler returns the world
    as it found it and no listener is called.  A frame other than the
    literal pong that [JSON.parse] accepts is dispatched: the handler runs
    [notifyListeners] on the decoded value, every call made carries
    exactly that value, every registered listener (that no callback
    unsubscribes while the dispatch runs) is called exactly once, and when
    no callback touches the listener set during the dispatch the handler
    returns and the calls made are precisely the registered listeners,
    each with the decoded value. *)
Theorem pong_is_dropped_and_json_is_dispatched rt fuel w :
  (onmessage rt fuel "pong" w = Done w
   /\ new_calls w (world_of (onmessage rt fuel "pong" w)) = [])
  /\ forall payload d,
      payload <> "pong" ->
      JSON_parse rt payload = Some d ->
      let w' := world_of (onmessage rt fuel payload w) in
      onmessage rt fuel payload w = notifyListeners rt fuel d w
      /\ Forall (fun x => inv_data x = d) (new_calls w w')
      /\ (forall cb i, Set_wf (listeners (this w)) ->
            listeners (this w) !! i = Some (Some cb) -> (i < fuel)%nat ->
            not_unsubscribed cb (new_calls w w') ->
            invocations cb (new_calls w w') = 1%nat)
      /\ ((length (listeners (this w)) <= fuel)%nat ->
          untouched (new_calls w w') ->
            onmessage rt fuel payload w = Done w'
            /\ map (fun x => (inv_cb x, inv_data x)) (new_calls w w')
               = map (fun cb => (cb, d)) (Set_elements (listeners (this w)))).
Proof.
  split; [split; [done|apply new_calls_refl]|].
  intros payload d Hpong Hparse.
  assert (Hrun : onmessage rt fuel payload w = notifyListeners rt fuel d w).
  { unfold onmessage. destruct (String.eqb_spec payload "pong") as [|_]; [done|].
    by rewrite Hparse. }
  cbv zeta. rewrite Hrun. split; [done|]. unfold notifyListeners.
  destruct (forEach_history rt d fuel 0 w) as (tr & Hc & Hd & _).
  split_and!.
  - by rewrite (new_calls_app _ _ _ Hc).
  - intros cb i Hwf Hi Hfuel Hkeep. by apply (dispatch_once rt fuel d w cb i).
  - intros Hfuel Hquiet.
    destruct (forEach_untouched rt d fuel 0 w) as (w' & Hdone & _ & Hcalls); [lia|done|].
    rewrite Hdone in *; simpl in *. split; [done|].
    rewrite drop_0 in Hcalls. rewrite <- Hcalls.
    rewrite (new_calls_app _ _ _ Hc).
    clear -Hd. induction Hd as [|x tr Hx _ IH]; simpl; [done|]. by rewrite Hx, IH.
Qed.

(** C7 (as amended).  For every listener set, message and listener behaviour: the
    dispatch logs one error line for each call that threw and nothing else
    (the error does not leave the loop); sockets, timers and the
    connection fields of the client, hence the connection state, are
    untouched; the listeners called, the listener set and the application
    state are the same as in the run in which the throwing bodies return
    normally instead, and the loop ends in the one exactly when it ends in
    the other; whoever throws, a registered listener that no callback
    unsubscribes during the dispatch is called exactly once; and when no
    callback touches the listener set during the dispatch, the loop
    returns having called every registered listener once. *)
Theorem listener_errors_are_isolated rt fuel d w :
  let r := notifyListeners rt fuel d w in
  let w' := world_of r in
  console w' = (console w ++ map (fun _ => console_error "Error in WebSocket listener:")
                                 (thrown (new_calls w w')))%list
  /\ same_session w w'
  /\ getConnectionState w' = getConnectionState w
  /\ forget_errors w' = forget_errors (world_of (notifyListeners (silence rt) fuel d w))
  /\ is_done r = is_done (notifyListeners (silence rt) fuel d w)
  /\ (forall cb i, Set_wf (listeners (this w)) ->
        listeners (this w) !! i = Some (Some cb) -> (i < fuel)%nat ->
        not_unsubscribed cb (new_calls w w') ->
        invocations cb (new_calls w w') = 1%nat)
  /\ ((length (listeners (this w)) <= fuel)%nat ->
      untouched (new_calls w w') ->
        r = Done w'
        /\ map inv_cb (new_calls w w') = Set_elements (listeners (this w))).
Proof.
  cbv zeta. unfold notifyListeners.
  destruct (forEach_history rt d fuel 0 w) as (tr & Hc & _ & Hl).
  pose proof (forEach_session rt d fuel 0 w) as Hs.
  destruct (forEach_silence rt d fuel 0 w w eq_refl) as [Hf Hd].
  split_and!; try done.
  - by rewrite (new_calls_app _ _ _ Hc).
  - by apply same_session_getConnectionState.
  - intros cb i Hwf Hi Hfuel Hkeep. by apply (dispatch_once rt fuel d w cb i).
  - intros Hfuel Hquiet.
    destruct (forEach_untouched rt d fuel 0 w) as (w' & Hdone & _ & Hcalls); [lia|done|].
    rewrite Hdone in *; simpl in *. by rewrite drop_0 in Hcalls.
Qed.

(** ** Reconnection *)

Lemma Forall_filter_keep {A} (P Q : A -> Prop) `{!forall x, Decision (Q x)} (xs : list A) :
  Forall P xs -> Forall P (filter Q xs).
Proof.
  rewrite !Forall_forall. intros Hall x [_ Hx]%list_elem_of_filter. by apply Hall.
Qed.

Lemma cleared_Forall (P : positive * Timer -> Prop) w :
  Forall P (timers w) -> Forall P (cleared w).
Proof.
  unfold cleared. destruct (pingInterval (this w)); [apply Forall_filter_keep|done].
Qed.

Lemma existsb_false_Forall {A} (f : A -> bool) (xs : list A) :
  existsb f xs = false <-> Forall (fun x => f x = false) xs.
Proof.
  induction xs as [|x xs IH]; simpl; [by split; [constructor|]|].
  rewrite orb_false_iff, Forall_cons. tauto.
Qed.

Lemma cleared_no_timeout w :
  reconnect_pending w = false -> existsb is_timeout (cleared w) = false.
Proof.
  unfold reconnect_pending. rewrite !existsb_false_Forall. apply cleared_Forall.
Qed.

(** An involuntary close below the limit counts one attempt and schedules
    one reconnection after [reconnectDelay]. *)
Lemma onclose_retry w :
  isIntentionallyClosed (this w) = false ->
  reconnectAttempts (this w) < maxReconnectAttempts (this w) ->
  timers (onclose w) = (cleared w ++ [(nextTimer w, Timeout (reconnectDelay (this w)))])%list
  /\ nextTimer (onclose w) = Pos.succ (nextTimer w)
  /\ this (onclose w) = set_reconnectAttempts (reconnectAttempts (this w) + 1) (this w)
  /\ sockets (onclose w) = sockets w.
Proof.
  fields_of w; simpl.
  intros -> Hlt. unfold onclose, cleared; simpl.
  destruct pi; simpl; (destruct (Z.ltb_spec ra mx); [done|lia]).
Qed.

(** A close after [disconnect], or at the limit, schedules nothing. *)
Lemma onclose_stop w :
  isIntentionallyClosed (this w) = true
  \/ maxReconnectAttempts (this w) <= reconnectAttempts (this w) ->
  timers (onclose w) = cleared w
  /\ nextTimer (onclose w) = nextTimer w
  /\ this (onclose w) = this w
  /\ sockets (onclose w) = sockets w.
Proof.
  fields_of w; simpl.
  intros Hstop. unfold onclose, cleared; simpl.
  destruct pi; simpl; destruct ic; simpl; try done;
    (destruct (Z.ltb_spec ra mx); [destruct Hstop; [done|lia]|done]).
Qed.

Lemma step_close rt fuel h w s :
  sockets w !! h = Some s -> readyState s <> CLOSED ->
  step rt fuel (Ev_close h) w = Some (onclose (upd_socket h (set_readyState CLOSED) w)).
Proof. simpl. intros -> Hr. by destruct (readyState s). Qed.

Lemma closing_last_socket h s w :
  sockets w !! h = Some s ->
  (forall h' s', h' <> h -> sockets w !! h' = Some s' -> readyState s' = CLOSED) ->
  all_closed (upd_socket h (set_readyState CLOSED) w).
Proof.
  intros Hs Hothers. unfold all_closed.
  rewrite (upd_socket_sockets _ _ _ _ Hs). apply Forall_lookup. intros i x Hi.
  destruct (decide (i = h)) as [->|Hne].
  - rewrite list_lookup_insert_eq in Hi by (by eapply lookup_lt_Some). by injection Hi as <-.
  - rewrite list_lookup_insert_ne in Hi by done. by eapply Hothers.
Qed.

Lemma closed_session_state h s w :
  ws (this w) = Some h -> sockets w !! h = Some s -> readyState s = CLOSED ->
  getConnectionState w = "DISCONNECTED".
Proof. intros Hw Hs Hr. unfold getConnectionState. by rewrite Hw, Hs; simpl; rewrite Hr. Qed.

(** Below the limit, an involuntary close leaves the client disconnected
    with exactly one reconnection scheduled. *)
Lemma involuntary_close_retry rt fuel k w :
  awaiting k w -> k < 5 ->
  exists w1, involuntary_close rt fuel w = Some w1 /\ dropped (k + 1) w1
    /\ length (sockets w1) = length (sockets w).
Proof.
  intros ((h & s & Hws & Hs & Hr & Hothers) & Hpend & Hfresh & Hflag & Hk & Hmax) Hlt.
  unfold involuntary_close. rewrite Hws, (step_close _ _ _ _ _ Hs Hr).
  eexists; split; [done|].
  set (v := upd_socket h (set_readyState CLOSED) w).
  assert (Hv : this v = this w) by apply upd_socket_this.
  destruct (onclose_retry v) as (Htm & Hnt & Hthis & Hsk);
    [by rewrite Hv|rewrite Hv; lia|].
  split; [|by rewrite Hsk; apply upd_socket_length].
  unfold dropped. rewrite Hthis, Hv; simpl. split_and!; try done; [..|lia].
  - eapply (closed_session_state h).
    + by rewrite Hthis, Hv.
    + rewrite Hsk. by apply upd_socket_lookup.
    + done.
  - unfold all_closed. rewrite Hsk. by eapply closing_last_socket.
  - exists (cleared v), (nextTimer v), (reconnectDelay (this w)).
    rewrite Htm, Hnt, Hv. split_and!; [done| | |lia].
    + apply cleared_no_timeout. unfold reconnect_pending, v.
      by rewrite upd_socket_timers.
    + apply cleared_Forall. unfold v.
      by rewrite upd_socket_timers, upd_socket_nextTimer.
Qed.

(** At the limit, an involuntary close schedules nothing. *)
Lemma involuntary_close_stop rt fuel k w :
  awaiting k w -> 5 <= k ->
  exists w1, involuntary_close rt fuel w = Some w1 /\ given_up w1
    /\ reconnectAttempts (this w1) = k
    /\ length (sockets w1) = length (sockets w).
Proof.
  intros ((h & s & Hws & Hs & Hr & Hothers) & Hpend & Hfresh & Hflag & Hk & Hmax) Hge.
  unfold involuntary_close. rewrite Hws, (step_close _ _ _ _ _ Hs Hr).
  eexists; split; [done|].
  set (v := upd_socket h (set_readyState CLOSED) w).
  assert (Hv : this v = this w) by apply upd_socket_this.
  destruct (onclose_stop v) as (Htm & Hnt & Hthis & Hsk);
    [right; rewrite Hv; lia|].
  unfold given_up. rewrite Hthis, Hv.
  split_and!; [| | |done|by rewrite Hsk; apply upd_socket_length].
  - eapply (closed_session_state h).
    + by rewrite Hthis, Hv.
    + rewrite Hsk. by apply upd_socket_lookup.
    + done.
  - unfold all_closed. rewrite Hsk. by eapply closing_last_socket.
  - unfold reconnect_pending at 1. rewrite Htm. apply cleared_no_timeout.
    unfold reconnect_pending, v. by rewrite upd_socket_timers.
Qed.

Lemma list_find_last {A} (P : A -> Prop) `{!forall x, Decision (P x)} (xs : list A) x :
  Forall (fun y => ~ P y) xs -> P x ->
  list_find P (xs ++ [x]) = Some (length xs, x).
Proof.
  intros Hxs Hx. apply list_find_Some. split_and!; [|done|].
  - by rewrite lookup_app_r, Nat.sub_diag.
  - intros j y Hj Hlt. rewrite lookup_app_l in Hj by done.
    by eapply (Forall_lookup_1 _ _ _ _ Hxs).
Qed.

Lemma all_closed_not_open w : all_closed w -> ws_readyState_is OPEN w = false.
Proof.
  intros Hall. unfold ws_readyState_is.
  destruct (ws (this w)) as [h|]; [|done].
  destruct (sockets w !! h) as [s|] eqn:Hs; [|done].
  apply bool_decide_eq_false_2.
  by rewrite (Forall_lookup_1 _ _ _ _ Hall Hs).
Qed.

(** [connect()] when the session is not open: a new socket becomes the
    session, the flag is cleared, nothing else changes. *)
Lemma connect_not_open rt w :
  ws_readyState_is OPEN w = false ->
  this (connect rt w)
    = set_ws (Some (length (sockets w))) (set_isIntentionallyClosed false (this w))
  /\ sockets (connect rt w) = (sockets w ++ [mkWebSocket (WS_URL rt) CONNECTING []])%list
  /\ timers (connect rt w) = timers w
  /\ nextTimer (connect rt w) = nextTimer w.
Proof. intros Hno. unfold connect. by rewrite Hno. Qed.

(** [connect()] when the session is open: nothing happens. *)
Lemma connect_open rt w :
  ws_readyState_is OPEN w = true -> connect rt w = w.
Proof. intros Hopen. unfold connect. by rewrite Hopen. Qed.

(** The scheduled reconnection fires: a new session is under way. *)
Lemma reconnect_fires_connects rt fuel k w :
  dropped k w ->
  exists w2, reconnect_fires rt fuel w = Some w2 /\ awaiting k w2
    /\ length (sockets w2) = S (length (sockets w)).
Proof.
  intros (Hstate & Hall & (tm & id & delay & Htm & Hno & Hold & Hnt) & Hflag & Hk & Hmax).
  apply existsb_false_Forall in Hno.
  unfold reconnect_fires. rewrite Htm.
  rewrite (list_find_last _ tm (id, Timeout delay)); [| |done].
  2:{ eapply Forall_impl; [exact Hno|]. simpl. intros e ->. done. }
  assert (Hlook : lookup_timer id w = Some (Timeout delay)).
  { unfold lookup_timer. rewrite Htm.
    rewrite (list_find_last _ tm (id, Timeout delay)); [done| |done].
    eapply Forall_impl; [exact Hold|]. simpl. intros e He. lia. }
  simpl. rewrite Hlook.
  set (v := clearTimer id w).
  assert (Hvt : timers v = tm).
  { unfold v, clearTimer; simpl. rewrite Htm, filter_app, filter_cons_False by (simpl; tauto).
    rewrite filter_nil, app_nil_r. clear -Hold.
    induction Hold as [|e tm He _ IH]; [done|].
    rewrite filter_cons_True by lia. by rewrite IH. }
  destruct (connect_not_open rt v) as (Hthis & Hsk & Htm' & Hnt').
  { by apply all_closed_not_open. }
  eexists; split_and!; [done| |by rewrite Hsk, length_app; simpl; lia].
  unfold awaiting. rewrite Hthis; simpl. split_and!; try done.
  - exists (length (sockets w)), (mkWebSocket (WS_URL rt) CONNECTING []).
    rewrite Hsk. split_and!; [done| |done|].
    + by rewrite lookup_app_r, Nat.sub_diag.
    + intros h' s' Hne Hs'. apply lookup_app_Some in Hs' as [Hs'|[Hge Hs']].
      * by apply (Forall_lookup_1 _ _ _ _ Hall Hs').
      * simpl in *. destruct (h' - length (sockets w))%nat eqn:Hd; [lia|done].
  - unfold reconnect_pending. rewrite Htm', Hvt. by apply existsb_false_Forall.
  - unfold timers_fresh. rewrite Htm', Hnt', Hvt. simpl.
    eapply Forall_impl; [exact Hold|]. simpl. intros e He. lia.
Qed.

(** Once the client has given up, nothing the browser can still deliver
    changes more than the console. *)
Lemma given_up_step rt fuel e w w' :
  given_up w -> environment_event e = true -> step rt fuel e w = Some w' ->
  given_up w' /\ sockets w' = sockets w /\ timers w' = timers w.
Proof.
  intros (Hstate & Hall & Hpend) Henv Hstep.
  assert (Hsame : w' = w \/ w' = onerror w).
  { destruct e as [| | | |h|h payload|h|h|id]; simpl in *; try done.
    - destruct (sockets w !! h) as [s|] eqn:Hs; [|done].
      by rewrite (Forall_lookup_1 _ _ _ _ Hall Hs) in Hstep.
    - destruct (sockets w !! h) as [s|] eqn:Hs; [|done].
      by rewrite (Forall_lookup_1 _ _ _ _ Hall Hs) in Hstep.
    - destruct (sockets w !! h); [|done]. right. congruence.
    - destruct (sockets w !! h) as [s|] eqn:Hs; [|done].
      by rewrite (Forall_lookup_1 _ _ _ _ Hall Hs) in Hstep.
    - destruct (lookup_timer id w) as [[period|delay]|] eqn:Hid; [| |done].
      + left. rewrite heartbeat_not_open in Hstep; [congruence|by rewrite Hstate].
      + apply lookup_timer_Some in Hid.
        apply existsb_false_Forall in Hpend.
        rewrite Forall_forall in Hpend. by specialize (Hpend _ Hid). }
  destruct Hsame as [->| ->]; [done|]. done.
Qed.

Lemma given_up_run rt fuel (evs : list Event) : forall w w',
  given_up w -> forallb environment_event evs = true -> run rt fuel evs w = Some w' ->
  given_up w' /\ sockets w' = sockets w /\ timers w' = timers w.
Proof.
  induction evs as [|e evs IH]; intros w w' Hup Henv Hrun; simpl in *.
  - by injection Hrun as <-.
  - apply andb_true_iff in Henv as [He Hes].
    destruct (step rt fuel e w) as [w1|] eqn:Hstep; [|done].
    destruct (given_up_step _ _ _ _ _ Hup He Hstep) as (Hup1 & Hs1 & Ht1).
    destruct (IH _ _ Hup1 Hes Hrun) as (Hup' & Hs' & Ht').
    split_and!; [done|congruence|congruence].
Qed.

Lemma dropped_pending k w : dropped k w -> reconnect_pending w = true.
Proof.
  intros (_ & _ & (tm & id & delay & Htm & _) & _). unfold reconnect_pending.
  rewrite Htm, existsb_app. simpl. apply orb_true_r.
Qed.

(** The first [n] closes in a row, for [n] up to the limit, each leave a
    reconnection scheduled. *)
Lemma consecutive_closes_retry rt fuel w :
  awaiting 0 w ->
  forall n, (1 <= n <= 5)%nat ->
    exists w', consecutive_closes rt fuel n w = Some w' /\ dropped (Z.of_nat n) w'
      /\ length (sockets w') = (length (sockets w) + (n - 1))%nat.
Proof.
  intros Hw. induction n as [|[|n] IH]; intros Hn; [lia|..].
  - simpl. destruct (involuntary_close_retry rt fuel 0 w Hw) as (w1 & ? & ? & ?); [lia|].
    exists w1. split_and!; [done|done|lia].
  - destruct IH as (w1 & Hrun & Hdrop & Hlen); [lia|].
    change (consecutive_closes rt fuel (S (S n)) w)
      with (match consecutive_closes rt fuel (S n) w with
            | Some w1 => match reconnect_fires rt fuel w1 with
                         | Some w2 => involuntary_close rt fuel w2
                         | None => None
                         end
            | None => None
            end).
    rewrite Hrun.
    destruct (reconnect_fires_connects rt fuel _ _ Hdrop) as (w2 & -> & Haw & Hlen2).
    destruct (involuntary_close_retry rt fuel _ _ Haw) as (w3 & -> & Hdrop3 & Hlen3); [lia|].
    exists w3. split_and!; [done| |lia].
    by replace (Z.of_nat (S (S n))) with (Z.of_nat (S n) + 1) by lia.
Qed.

(** Six involuntary closes in a row, from a session under way with the
    reconnect counter at 0. *)
Lemma closes_of_a_session_under_way rt fuel w :
  awaiting 0 w ->
  (forall n, (1 <= n <= 5)%nat ->
     exists w', consecutive_closes rt fuel n w = Some w'
       /\ reconnect_pending w' = true
       /\ reconnectAttempts (this w') = Z.of_nat n
       /\ getConnectionState w' = "DISCONNECTED")
  /\ exists w6, consecutive_closes rt fuel 6 w = Some w6
       /\ reconnect_pending w6 = false
       /\ getConnectionState w6 = "DISCONNECTED"
       /\ length (sockets w6) = (length (sockets w) + 5)%nat
       /\ forall (evs : list Event) w',
            forallb environment_event evs = true ->
            run rt fuel evs w6 = Some w' ->
            getConnectionState w' = "DISCONNECTED"
            /\ reconnect_pending w' = false
            /\ sockets w' = sockets w6.
Proof.
  intros Hw. split.
  - intros n Hn.
    destruct (consecutive_closes_retry rt fuel w Hw n Hn) as (w' & Hrun & Hdrop & _).
    exists w'. split_and!; [done|by eapply dropped_pending|..].
    + by destruct Hdrop as (_ & _ & _ & _ & ? & _).
    + by destruct Hdrop as (? & _).
  - destruct (consecutive_closes_retry rt fuel w Hw 5) as (w5 & Hrun & Hdrop & Hlen5); [lia|].
    destruct (reconnect_fires_connects rt fuel _ _ Hdrop) as (v & Hfire & Haw & Hlenv).
    destruct (involuntary_close_stop rt fuel _ _ Haw)
      as (w6 & Hclose & Hup & _ & Hlen6); [simpl; lia|].
    exists w6. split_and!.
    + change (consecutive_closes rt fuel 6 w)
        with (match consecutive_closes rt fuel 5 w with
              | Some w1 => match reconnect_fires rt fuel w1 with
                           | Some w2 => involuntary_close rt fuel w2
                           | None => None
                           end
              | None => None
              end).
      by rewrite Hrun, Hfire.
    + by destruct Hup as (_ & _ & ?).
    + by destruct Hup as (? & _).
    + lia.
    + intros evs w' Henv Hevs.
      destruct (given_up_run rt fuel evs _ _ Hup Henv Hevs) as ((? & _ & ?) & ? & _).
      done.
Qed.

(** ** Voluntary close *)

Lemma disconnect_pingInterval w : pingInterval (this (disconnect w)) = pingInterval (this w).
Proof.
  fields_of w.
  unfold disconnect; simpl. destruct pi, wsr; simpl; by rewrite ?upd_socket_this.
Qed.

Lemma filter_twice {A} (P : A -> Prop) `{!forall x, Decision (P x)} (xs : list A) :
  filter P (filter P xs) = filter P xs.
Proof.
  induction xs as [|x xs IH]; [done|].
  rewrite filter_cons. case_decide; [|done].
  by rewrite filter_cons_True, IH.
Qed.

(** C9.  [disconnect()] is total: from every world it returns, and in the
    world it returns the "intentionally closed" flag is set, the heartbeat
    timer named by [pingInterval] is no longer in the timer table, [close()]
    has been called on the socket that was the session (so it is neither
    connecting nor open any more), the session reference is cleared, and
    [getConnectionState()] answers DISCONNECTED.  The flag stays: a close
    event that arrives afterwards schedules no reconnection and leaves the
    state at DISCONNECTED. *)
Theorem disconnect_always_succeeds rt fuel w :
  let w' := disconnect w in
  isIntentionallyClosed (this w') = true
  /\ (forall id, pingInterval (this w) = Some id -> lookup_timer id w' = None)
  /\ (forall h s, ws (this w) = Some h -> sockets w !! h = Some s ->
        sockets w' !! h = Some (WebSocket_close s) /\ live (WebSocket_close s) = false)
  /\ ws (this w') = None
  /\ getConnectionState w' = "DISCONNECTED"
  /\ (forall h v, step rt fuel (Ev_close h) w' = Some v ->
        isIntentionallyClosed (this v) = true
        /\ timers v = timers w'
        /\ getConnectionState v = "DISCONNECTED").
Proof.
  cbv zeta. split_and!.
  - apply disconnect_flag.
  - intros id Hid.
    rewrite (lookup_timer_ext id _ (clearTimer id w)); [apply lookup_timer_clearTimer|].
    rewrite disconnect_timers. unfold cleared. by rewrite Hid.
  - intros h s Hws Hs. split; [|apply WebSocket_close_not_live].
    rewrite disconnect_sockets, Hws. by apply upd_socket_lookup.
  - apply disconnect_ws.
  - apply disconnect_state.
  - intros h v Hstep. simpl in Hstep.
    destruct (sockets (disconnect w) !! h) as [s|]; [|done].
    set (x := upd_socket h (set_readyState CLOSED) (disconnect w)) in *.
    assert (Hx : this x = this (disconnect w)) by apply upd_socket_this.
    assert (Hv : v = onclose x) by (destruct (readyState s); congruence).
    destruct (onclose_stop x) as (Htm & _ & Hthis & _).
    { left. by rewrite Hx, disconnect_flag. }
    subst v. rewrite Hthis, Hx. split_and!.
    + apply disconnect_flag.
    + rewrite Htm. unfold cleared, x. rewrite upd_socket_this, upd_socket_timers.
      rewrite disconnect_pingInterval, disconnect_timers. unfold cleared.
      destruct (pingInterval (this w)); [apply filter_twice|done].
    + unfold getConnectionState. by rewrite Hthis, Hx, disconnect_ws.
Qed.

(** ** The timer table of reachable worlds *)

Lemma onclose_timers_sub w e :
  e ∈ timers (onclose w) ->
  e ∈ timers w \/ (e.1 = nextTimer w /\ nextTimer (onclose w) = Pos.succ (nextTimer w)).
Proof.
  destruct (decide (isIntentionallyClosed (this w) = false
                    /\ reconnectAttempts (this w) < maxReconnectAttempts (this w)))
    as [[Hflag Hlt]|Hstop].
  - destruct (onclose_retry w Hflag Hlt) as (-> & -> & _).
    rewrite elem_of_app, list_elem_of_singleton. intros [Hin| ->]; [left|by right].
    unfold cleared in Hin. destruct (pingInterval (this w)); [|done].
    by apply list_elem_of_filter in Hin as [_ ?].
  - destruct (onclose_stop w) as (-> & _).
    { destruct (isIntentionallyClosed (this w)); [by left|right].
      destruct (Z.le_gt_cases (maxReconnectAttempts (this w)) (reconnectAttempts (this w)));
        [done|]. destruct Hstop. split; [done|lia]. }
    intros Hin. left. unfold cleared in Hin. destruct (pingInterval (this w)); [|done].
    by apply list_elem_of_filter in Hin as [_ ?].
Qed.

Lemma onclose_nextTimer w : (nextTimer w <= nextTimer (onclose w))%positive.
Proof.
  destruct (decide (isIntentionallyClosed (this w) = false
                    /\ reconnectAttempts (this w) < maxReconnectAttempts (this w)))
    as [[Hflag Hlt]|Hstop].
  - destruct (onclose_retry w Hflag Hlt) as (_ & -> & _). lia.
  - destruct (onclose_stop w) as (_ & -> & _); [|lia].
    destruct (isIntentionallyClosed (this w)); [by left|right].
    destruct (Z.le_gt_cases (maxReconnectAttempts (this w)) (reconnectAttempts (this w)));
      [done|]. destruct Hstop. split; [done|lia].
Qed.

Lemma onclose_pingInterval w : pingInterval (this (onclose w)) = pingInterval (this w).
Proof.
  fields_of w.
  unfold onclose; simpl.
  destruct pi, ic; simpl; try done; by destruct (Z.ltb_spec ra mx).
Qed.

Lemma connect_timers rt w :
  timers (connect rt w) = timers w /\ nextTimer (connect rt w) = nextTimer w
  /\ pingInterval (this (connect rt w)) = pingInterval (this w).
Proof. unfold connect. by destruct (ws_readyState_is OPEN w). Qed.

Lemma heartbeat_timers w :
  timers (heartbeat w) = timers w /\ nextTimer (heartbeat w) = nextTimer w
  /\ pingInterval (this (heartbeat w)) = pingInterval (this w).
Proof.
  unfold heartbeat. destruct (ws_readyState_is OPEN w); [|done].
  destruct (ws (this w)); [|done].
  by rewrite upd_socket_timers, upd_socket_nextTimer, upd_socket_this.
Qed.

Lemma disconnect_nextTimer w : nextTimer (disconnect w) = nextTimer w.
Proof.
  fields_of w.
  unfold disconnect; simpl. destruct pi, wsr; simpl; by rewrite ?upd_socket_nextTimer.
Qed.

(** The two facts travel together: handles in the table are below the
    next handle, and [pingInterval] names no reconnection timeout. *)
Lemma step_timers_ok rt fuel e w w' :
  timers_fresh w /\ pingInterval_ok w -> step rt fuel e w = Some w' ->
  timers_fresh w' /\ pingInterval_ok w'.
Proof.
  unfold timers_fresh, pingInterval_ok. rewrite !Forall_forall.
  intros [Hfresh Hping] Hstep.
  destruct e as [| |cb|cb|h|h payload|h|h|id]; simpl in Hstep.
  - injection Hstep as <-. by destruct (connect_timers rt w) as (-> & -> & ->).
  - injection Hstep as <-.
    rewrite disconnect_timers, disconnect_nextTimer, disconnect_pingInterval.
    split.
    + intros x Hx. apply Hfresh. unfold cleared in Hx.
      destruct (pingInterval (this w)); [|done]. by apply list_elem_of_filter in Hx as [_ ?].
    + intros id Hid. destruct (Hping id Hid) as [Hlt Hint]. split; [done|].
      intros t Ht. apply Hint. unfold cleared in Ht. rewrite Hid in Ht.
      by apply list_elem_of_filter in Ht as [_ ?].
  - by injection Hstep as <-.
  - by injection Hstep as <-.
  - destruct (sockets w !! h) as [s|]; [|done].
    destruct (readyState s); try done. injection Hstep as <-.
    destruct (onopen_spec (upd_socket h (set_readyState OPEN) w)) as (_ & Hpi & Htm & _).
    rewrite upd_socket_timers, upd_socket_nextTimer in *.
    assert (Hnt : nextTimer (onopen (upd_socket h (set_readyState OPEN) w))
                  = Pos.succ (nextTimer w)).
    { unfold onopen; simpl. by rewrite upd_socket_nextTimer. }
    rewrite Htm, Hpi, Hnt. split.
    + intros x [Hx| ->%list_elem_of_singleton]%elem_of_app; [|simpl; lia].
      specialize (Hfresh x Hx). lia.
    + intros id [= <-]. split; [lia|].
      intros t [Ht| [= ->]%list_elem_of_singleton]%elem_of_app; [|done].
      specialize (Hfresh _ Ht). simpl in Hfresh. lia.
  - destruct (sockets w !! h) as [s|]; [|done].
    destruct (readyState s); try done.
    destruct (onmessage rt fuel payload w) as [v|v] eqn:Hmsg; [|done].
    injection Hstep as <-.
    assert (Hsame : same_session w v).
    { unfold onmessage in Hmsg.
      destruct (String.eqb payload "pong"); [injection Hmsg as <-; apply same_session_refl|].
      destruct (JSON_parse rt payload) as [d|]; [|by injection Hmsg as <-].
      pose proof (forEach_session rt d fuel 0 w) as Hs.
      unfold notifyListeners in Hmsg. by rewrite Hmsg in Hs. }
    destruct Hsame as (Hthis & _ & -> & ->).
    by replace (pingInterval (this v)) with (pingInterval (this w)) by (by injection Hthis).
  - destruct (sockets w !! h); [|done]. by injection Hstep as <-.
  - destruct (sockets w !! h) as [s|]; [|done].
    set (x := upd_socket h (set_readyState CLOSED) w) in *.
    assert (Hv : w' = onclose x) by (destruct (readyState s); congruence).
    subst w'. rewrite onclose_pingInterval.
    assert (Hxt : timers x = timers w) by apply upd_socket_timers.
    assert (Hxn : nextTimer x = nextTimer w) by apply upd_socket_nextTimer.
    assert (Hxp : this x = this w) by apply upd_socket_this.
    pose proof (onclose_nextTimer x) as Hmono. rewrite Hxn in Hmono.
    split.
    + intros e [He|[He Hnt]]%onclose_timers_sub.
      * rewrite Hxt in He. specialize (Hfresh e He). lia.
      * rewrite Hnt, He, Hxn. lia.
    + rewrite Hxp. intros id Hid. destruct (Hping id Hid) as [Hlt Hint]. split; [lia|].
      intros t [Ht|[Ht _]]%onclose_timers_sub.
      * apply Hint. by rewrite <- Hxt.
      * simpl in Ht. rewrite Hxn in Ht. lia.
  - destruct (lookup_timer id w) as [[period|delay]|]; [| |done]; injection Hstep as <-.
    + by destruct (heartbeat_timers w) as (-> & -> & ->).
    + destruct (connect_timers rt (clearTimer id w)) as (-> & -> & ->). simpl. split.
      * intros x [_ Hx]%list_elem_of_filter. by apply Hfresh.
      * intros p Hp. destruct (Hping p Hp) as [Hlt Hint]. split; [done|].
        intros t [_ Ht]%list_elem_of_filter. by apply Hint.
Qed.

Lemma reachable_timers_ok rt w : reachable rt w -> timers_fresh w /\ pingInterval_ok w.
Proof.
  intros (u & fuel & evs & Hrun).
  assert (Hinit : timers_fresh (init (Data:=Data) u) /\ pingInterval_ok (init (Data:=Data) u)).
  { split; [constructor|]. by intros id. }
  revert Hinit Hrun. generalize (init (Data:=Data) u).
  induction evs as [|e evs IH]; intros v Hv Hrun; simpl in Hrun.
  - by injection Hrun as <-.
  - destruct (step rt fuel e v) as [v1|] eqn:Hstep; [|done].
    eapply IH; [|done]. by eapply step_timers_ok.
Qed.

(** ** Defects of [connect] *)

(** A scheduled reconnection fires although [disconnect()] was called in
    between: the timer is not cancelled, and [connect()] itself clears the
    flag that [disconnect()] set. *)
Lemma pending_reconnect_survives_disconnect rt fuel w id delay :
  lookup_timer id w = Some (Timeout delay) ->
  pingInterval (this w) <> Some id ->
  getConnectionState (disconnect w) = "DISCONNECTED"
  /\ exists w', step rt fuel (Ev_timer id) (disconnect w) = Some w'
       /\ getConnectionState w' = "CONNECTING"
       /\ isIntentionallyClosed (this w') = false
       /\ length (sockets w') = S (length (sockets w)).
Proof.
  intros Hid Hpi. split; [apply disconnect_state|].
  pose proof (disconnect_timers w) as Htm.
  assert (Hlen : length (sockets (disconnect w)) = length (sockets w)).
  { rewrite disconnect_sockets. destruct (ws (this w)); [apply upd_socket_length|done]. }
  assert (Hkeep : lookup_timer id (disconnect w) = Some (Timeout delay)).
  { rewrite <- Hid. unfold cleared in Htm.
    destruct (pingInterval (this w)) as [p|] eqn:Hp.
    - rewrite <- (lookup_timer_clear_other id p w) by congruence.
      by apply lookup_timer_ext.
    - by apply lookup_timer_ext. }
  simpl. rewrite Hkeep.
  destruct (connect_not_open rt (clearTimer id (disconnect w))) as (Hthis & Hsk & _).
  { unfold ws_readyState_is; simpl. by rewrite disconnect_ws. }
  eexists; split_and!; [done| | |].
  - unfold getConnectionState. rewrite Hthis, Hsk; simpl.
    by rewrite lookup_app_r, Nat.sub_diag.
  - by rewrite Hthis.
  - rewrite Hsk, length_app; simpl. lia.
Qed.

(** From every reachable world in which a reconnection is scheduled:
    [disconnect()] does not stop it. *)
Lemma disconnect_never_cancels_reconnect rt fuel w id delay :
  reachable rt w ->
  lookup_timer id w = Some (Timeout delay) ->
  getConnectionState (disconnect w) = "DISCONNECTED"
  /\ exists w', step rt fuel (Ev_timer id) (disconnect w) = Some w'
       /\ getConnectionState w' = "CONNECTING"
       /\ isIntentionallyClosed (this w') = false
       /\ length (sockets w') = S (length (sockets w)).
Proof.
  intros [_ Hping]%reachable_timers_ok Hid.
  apply pending_reconnect_survives_disconnect with delay; [done|].
  intros Hpi. destruct (Hping id Hpi) as [_ Hint].
  by specialize (Hint _ (lookup_timer_Some _ _ _ Hid)).
Qed.

(** C1.  The run connect, close, disconnect, timer: the close schedules
    a reconnection; [disconnect()] leaves that timer in the table and
    answers DISCONNECTED; the timer then fires, [connect()] clears the
    flag and opens a second socket, and the state reads CONNECTING. *)
Theorem pending_reconnect_fires_after_disconnect rt fuel (u : U) :
  exists w1 w2 w3,
    run rt fuel [Call_connect; Ev_close 0] (init u) = Some w1
    /\ reconnect_pending w1 = true
    /\ timers w1 = [(1%positive, Timeout 3000)]
    /\ step rt fuel Call_disconnect w1 = Some w2
    /\ isIntentionallyClosed (this w2) = true
    /\ getConnectionState w2 = "DISCONNECTED"
    /\ timers w2 = [(1%positive, Timeout 3000)]
    /\ step rt fuel (Ev_timer 1) w2 = Some w3
    /\ isIntentionallyClosed (this w3) = false
    /\ getConnectionState w3 = "CONNECTING"
    /\ length (sockets w3) = 2%nat.
Proof. do 3 eexists. split_and!; vm_compute; reflexivity. Qed.

(** [connect()] while the session is still connecting: a second socket is
    created and becomes the session; the first one stays as it is. *)
Lemma connect_while_connecting rt w h s :
  ws (this w) = Some h -> sockets w !! h = Some s -> readyState s = CONNECTING ->
  ws (this (connect rt w)) = Some (length (sockets w))
  /\ sockets (connect rt w) = (sockets w ++ [mkWebSocket (WS_URL rt) CONNECTING []])%list
  /\ sockets (connect rt w) !! h = Some s
  /\ live_sockets (connect rt w) = S (live_sockets w).
Proof.
  intros Hws Hs Hr.
  destruct (connect_not_open rt w) as (Hthis & Hsk & _).
  { unfold ws_readyState_is. rewrite Hws, Hs, Hr. done. }
  split_and!; [by rewrite Hthis|done|rewrite Hsk; by apply lookup_app_l_Some|].
  unfold live_sockets. rewrite Hsk, filter_app, length_app. simpl. lia.
Qed.

(** A fresh client that has called [connect()] has a session under way. *)
Lemma fresh_client_awaiting rt (u : U) : awaiting 0 (connect rt (init u)).
Proof.
  unfold awaiting. split_and!; try reflexivity.
  - exists 0%nat, (mkWebSocket (WS_URL rt) CONNECTING []).
    split_and!; [done|done|done|]. by intros [|[|h']] s' Hne Hs'.
  - constructor.
Qed.

(** C2.  Two calls of [connect()] in a row, the second while the first
    socket is still connecting: the second call is not a no-op, it creates
    a second socket, and both are live. *)
Theorem connect_twice_opens_two_sockets rt (u : U) :
  let w1 := connect rt (init u) in
  let w2 := connect rt w1 in
  getConnectionState w1 = "CONNECTING"
  /\ live_sockets w1 = 1%nat
  /\ w2 <> w1
  /\ length (sockets w2) = 2%nat
  /\ live_sockets w2 = 2%nat
  /\ getConnectionState w2 = "CONNECTING".
Proof. cbv zeta. split_and!; try (vm_compute; reflexivity). discriminate. Qed.

End Properties.

(** * Examples *)

(** C3, counterexample.  The application subscribes listeners 0 and 1 and
    connects; the socket opens and a message arrives.  Both listeners are
    registered when it is dispatched; listener 0 unsubscribes listener 1
    from inside its callback, and listener 1 is never called for the
    message.  And a listener that unsubscribes and subscribes itself again
    while it is being called is called twice for the one message. *)
Lemma registered_listener_skipped_or_called_twice :
  (exists w w',
     run host_unsubscribing 3
       [Call_subscribe 0%nat; Call_subscribe 1%nat; Call_connect; Ev_open 0] (init 0%nat)
       = Some w
     /\ registered 0%nat w /\ registered 1%nat w
     /\ step host_unsubscribing 3 (Ev_message 0 "{}") w = Some w'
     /\ map inv_cb (new_calls w w') = [0%nat]
     /\ invocations 1%nat (new_calls w w') = 0%nat)
  /\ (exists w w',
        run host_resubscribing 3
          [Call_subscribe 0%nat; Call_connect; Ev_open 0] (init 0%nat) = Some w
        /\ registered 0%nat w
        /\ step host_resubscribing 3 (Ev_message 0 "{}") w = Some w'
        /\ map inv_cb (new_calls w w') = [0%nat; 0%nat]
        /\ invocations 0%nat (new_calls w w') = 2%nat).
Proof.
  split.
  - do 2 eexists. split_and!; try (vm_compute; reflexivity);
      vm_compute; repeat constructor.
  - do 2 eexists. split_and!; try (vm_compute; reflexivity);
      vm_compute; repeat constructor.
Qed.

(** A listener that re-subscribes itself on every call keeps the loop
    busy for ever: each call leaves an empty slot behind and a new slot
    ahead, so no amount of fuel lets the dispatch return. *)
Lemma Set_delete_last (j : nat) (cb : Callback) :
  Set_delete cb (replicate j None ++ [Some cb]) = replicate (S j) None.
Proof.
  assert (Hcons : forall e l, Set_delete cb (e :: l)
            = if bool_decide (e = Some cb) then None :: l else e :: Set_delete cb l)
    by reflexivity.
  induction j as [|j IH].
  - change (Set_delete cb [Some cb] = [None]).
    by rewrite Hcons, bool_decide_eq_true_2.
  - change (Set_delete cb (None :: (replicate j None ++ [Some cb]))
            = None :: replicate (S j) None).
    by rewrite Hcons, bool_decide_eq_false_2, IH.
Qed.

Lemma Set_add_after_empty (j : nat) (cb : Callback) :
  Set_add cb (replicate j None) = (replicate j None ++ [Some cb])%list.
Proof.
  unfold Set_add. rewrite bool_decide_eq_false_2; [done|].
  by intros [[=] _]%elem_of_replicate.
Qed.

Lemma looping_forEach fuel : forall j (w : World JSON nat),
  listeners (this w) = (replicate j None ++ [Some 0%nat])%list ->
  is_done (forEach host_looping fuel JNull j w) = false.
Proof.
  induction fuel as [|fuel IH]; intros j w Hl; rewrite forEach_unfold, Hl;
    rewrite lookup_app_r, length_replicate, Nat.sub_diag by (by rewrite length_replicate);
    simpl; [done|].
  apply IH. rewrite call_listener_listeners, Hl. unfold effects_of; simpl.
  rewrite Set_delete_last.
  change (None :: replicate j None) with (replicate (S j) (@None Callback)).
  by rewrite Set_add_after_empty.
Qed.

Lemma resubscribing_listener_never_returns (fuel : nat) :
  is_done (notifyListeners host_looping fuel JNull (fst (subscribe 0%nat (init 0%nat)))) = false.
Proof. by apply (looping_forEach fuel 0). Qed.

(** C4, counterexample.  After exactly five involuntary closes in a row,
    starting from a fresh client, a reconnection is scheduled; it fires
    and opens a sixth socket. *)
Lemma fifth_close_schedules_a_reconnection :
  exists w5 w',
    consecutive_closes host_idle 0 5 connecting_client = Some w5
    /\ reconnectAttempts (this w5) = 5
    /\ reconnect_pending w5 = true
    /\ timers w5 = [(5%positive, Timeout 3000)]
    /\ step host_idle 0 (Ev_timer 5) w5 = Some w'
    /\ getConnectionState w' = "CONNECTING"
    /\ length (sockets w') = 6%nat.
Proof. do 2 eexists. split_and!; vm_compute; reflexivity. Qed.

(** C3, witness: three passive listeners, subscribed one after the other
    on a fresh client; listener 1 sits in slot 1 and is called exactly
    once. *)
Lemma dispatch_calls_each_registered_listener_once_witness :
  reachable host_idle three_listeners
  /\ invocations 1%nat
       (new_calls three_listeners
          (world_of (notifyListeners host_idle 3 JNull three_listeners))) = 1%nat.
Proof.
  assert (Hreach : reachable host_idle three_listeners).
  { exists 0%nat, 0%nat,
      [Call_subscribe 0%nat; Call_subscribe 1%nat; Call_subscribe 2%nat].
    reflexivity. }
  split; [exact Hreach|].
  destruct (dispatch_calls_each_registered_listener_once
              host_idle 3 JNull three_listeners Hreach) as (_ & _ & Honce & _).
  apply (Honce 1%nat 1%nat); [reflexivity|lia|].
  vm_compute. repeat constructor; apply not_elem_of_nil.
Defined.

(** C5, witness: the handler receives the text of the empty object, on a
    client with three listeners. *)
Lemma pong_is_dropped_and_json_is_dispatched_witness :
  "{}" <> "pong"
  /\ JSON_parse host_idle "{}" = Some (JObject [])
  /\ onmessage host_idle 3 "pong" three_listeners = Done three_listeners
  /\ onmessage host_idle 3 "{}" three_listeners
     = notifyListeners host_idle 3 (JObject []) three_listeners.
Proof.
  assert (Hne : "{}" <> "pong") by discriminate.
  assert (Hparse : JSON_parse host_idle "{}" = Some (JObject [])) by reflexivity.
  split; [exact Hne|]. split; [exact Hparse|].
  destruct (pong_is_dropped_and_json_is_dispatched host_idle 3 three_listeners)
    as ((Hpong & _) & Hjson).
  destruct (Hjson "{}" (JObject []) Hne Hparse) as (Hrun & _).
  split; assumption.
Defined.

(** C6, witness: the payload of the specification's example. *)
Lemma malformed_payload_dropped_witness :
  "{not json" <> "pong"
  /\ JSON_parse host_idle "{not json" = None
  /\ exists w', onmessage host_idle 3 "{not json" three_listeners = Done w'
       /\ same_state three_listeners w'.
Proof.
  assert (Hne : "{not json" <> "pong") by discriminate.
  assert (Hparse : JSON_parse host_idle "{not json" = None) by reflexivity.
  split; [exact Hne|]. split; [exact Hparse|].
  destruct (malformed_payload_dropped host_idle 3 "{not json" three_listeners Hne Hparse)
    as (w' & Hrun & Hsame & _).
  exists w'. split; assumption.
Defined.

(** C7, witness: listener 1 throws, nobody touches the listener set; all
    three listeners are called. *)
Lemma listener_errors_are_isolated_witness :
  untouched (new_calls three_listeners
               (world_of (notifyListeners host_throwing 3 JNull three_listeners)))
  /\ map inv_cb (new_calls three_listeners
                   (world_of (notifyListeners host_throwing 3 JNull three_listeners)))
     = [0; 1; 2]%nat.
Proof.
  assert (Hquiet : untouched
            (new_calls three_listeners
               (world_of (notifyListeners host_throwing 3 JNull three_listeners))))
    by (vm_compute; repeat constructor).
  split; [exact Hquiet|].
  destruct (listener_errors_are_isolated host_throwing 3 JNull three_listeners)
    as (_ & _ & _ & _ & _ & _ & Hall).
  destruct Hall as (_ & Hcalls); [vm_compute; lia|exact Hquiet|].
  exact Hcalls.
Defined.

(** C8, witness: the socket of a fresh client opens, and the heartbeat
    timer it started fires: one ping has gone out on the socket. *)
Lemma open_resets_counter_and_starts_heartbeat_witness :
  step host_idle 0 (Ev_open 0) connecting_client = Some open_client
  /\ reconnectAttempts (this open_client) = 0
  /\ pingInterval (this open_client) = Some 1%positive
  /\ exists v', step host_idle 0 (Ev_timer 1) open_client = Some v'
       /\ (sent <$> sockets open_client !! 0%nat) = Some []
       /\ (sent <$> sockets v' !! 0%nat) = Some ["ping"].
Proof.
  assert (Hstep : step host_idle 0 (Ev_open 0) connecting_client = Some open_client)
    by reflexivity.
  split; [exact Hstep|].
  destruct (open_resets_counter_and_starts_heartbeat
              host_idle 0 0%nat connecting_client open_client Hstep)
    as (Hcount & Hping & _ & _ & Hfire).
  split; [exact Hcount|]. split; [exact Hping|].
  destruct (Hfire open_client 1%positive 30000 eq_refl) as (v' & Hv' & _ & Hopen & _).
  destruct (Hopen eq_refl) as (hv & sv & Hws & Hsv & Hsent & _).
  exists v'. split; [exact Hv'|]. split; [reflexivity|].
  vm_compute in Hws. injection Hws as <-.
  vm_compute in Hsv. injection Hsv as <-.
  by rewrite Hsent.
Defined.

(** C9, witness: [disconnect()] on an open client, whose heartbeat is
    timer 1 and whose session is socket 0. *)
Lemma disconnect_always_succeeds_witness :
  pingInterval (this open_client) = Some 1%positive
  /\ ws (this open_client) = Some 0%nat
  /\ lookup_timer 1 (disconnect open_client) = None
  /\ getConnectionState (disconnect open_client) = "DISCONNECTED".
Proof.
  assert (Hping : pingInterval (this open_client) = Some 1%positive) by reflexivity.
  split; [exact Hping|]. split; [reflexivity|].
  destruct (disconnect_always_succeeds host_idle 0 open_client)
    as (_ & Htimer & _ & _ & Hstate & _).
  split; [exact (Htimer 1%positive Hping)|exact Hstate].
Defined.

(** C10, witness: an error event on the socket of a fresh client. *)
Lemma error_event_changes_nothing_witness :
  step host_idle 0 (Ev_error 0) connecting_client = Some (onerror connecting_client)
  /\ same_state connecting_client (onerror connecting_client).
Proof.
  assert (Hstep : step host_idle 0 (Ev_error 0) connecting_client
                  = Some (onerror connecting_client)) by reflexivity.
  split; [exact Hstep|].
  destruct (error_event_changes_nothing
              host_idle 0 0%nat connecting_client (onerror connecting_client) Hstep)
    as (Hsame & _).
  exact Hsame.
Defined.

(** * More about the client *)

Ltac fields_of w :=
  let wsr := fresh "wsr" in let ls := fresh "ls" in let ra := fresh "ra" in
  let mx := fresh "mx" in let dl := fresh "dl" in let ic := fresh "ic" in
  let pi := fresh "pi" in let sk := fresh "sk" in let tm := fresh "tm" in
  let nt := fresh "nt" in let co := fresh "co" in let ca := fresh "ca" in
  let us := fresh "us" in
  destruct w as [[wsr ls ra mx dl ic pi] sk tm nt co ca us].

Section Client.

Context {Data U : Type}.
Implicit Types (w v : World Data U) (rt : Runtime Data U) (d : Data).
Implicit Types (cb c : Callback) (l : list (option Callback)) (s : WebSocket).
Implicit Types (i j fuel : nat) (tr : list (Invocation Data)).

(** A property of the fresh client that every turn of the event loop
    keeps holds in every reachable world. *)
Lemma reachable_invariant rt (P : World Data U -> Prop) :
  (forall u, P (init u)) ->
  (forall fuel e w w', P w -> step rt fuel e w = Some w' -> P w') ->
  forall w, reachable rt w -> P w.
Proof.
  intros Hinit Hstep w (u & fuel & evs & Hrun).
  specialize (Hinit u). revert Hinit Hrun. generalize (init (Data:=Data) u).
  induction evs as [|e evs IH]; intros v Hv Hrun; simpl in Hrun.
  - by injection Hrun as <-.
  - destruct (step rt fuel e v) as [v1|] eqn:Hv1; [|done].
    eapply IH; [|done]. by eapply Hstep.
Qed.

(** The message handler, when it returns, has touched neither the
    transport nor the connection fields. *)
Lemma onmessage_session rt fuel payload w w' :
  onmessage rt fuel payload w = Done w' -> same_session w w'.
Proof.
  unfold onmessage.
  destruct (String.eqb payload "pong"); [intros [= <-]; apply same_session_refl|].
  destruct (JSON_parse rt payload) as [d|]; [|by intros [= <-]].
  intros Hrun. pose proof (forEach_session rt d fuel 0 w) as Hs.
  unfold notifyListeners in Hrun. by rewrite Hrun in Hs.
Qed.

Lemma same_session_fields w w' :
  same_session w w' ->
  ws (this w') = ws (this w)
  /\ reconnectAttempts (this w') = reconnectAttempts (this w)
  /\ maxReconnectAttempts (this w') = maxReconnectAttempts (this w)
  /\ reconnectDelay (this w') = reconnectDelay (this w)
  /\ isIntentionallyClosed (this w') = isIntentionallyClosed (this w)
  /\ pingInterval (this w') = pingInterval (this w).
Proof. intros (Hthis & _). by injection Hthis. Qed.

(** What each operation does to the fields of [this], apart from the
    listener set. *)
Lemma connect_this rt w :
  this (connect rt w) = this w
  \/ this (connect rt w)
     = set_ws (Some (length (sockets w))) (set_isIntentionallyClosed false (this w))
       /\ sockets (connect rt w) = (sockets w ++ [mkWebSocket (WS_URL rt) CONNECTING []])%list.
Proof.
  destruct (ws_readyState_is OPEN w) eqn:Hopen.
  - left. by rewrite connect_open.
  - right. by destruct (connect_not_open rt w Hopen) as (? & ? & _).
Qed.

Lemma connect_length rt w : (length (sockets w) <= length (sockets (connect rt w)))%nat.
Proof.
  unfold connect. destruct (ws_readyState_is OPEN w); [done|].
  simpl. rewrite length_app. lia.
Qed.

Lemma disconnect_this w :
  this (disconnect w) = set_ws None (set_isIntentionallyClosed true (this w)).
Proof.
  fields_of w. unfold disconnect; simpl.
  destruct pi, wsr; simpl; by rewrite ?upd_socket_this.
Qed.

Lemma disconnect_length w : length (sockets (disconnect w)) = length (sockets w).
Proof.
  rewrite disconnect_sockets. destruct (ws (this w)); [apply upd_socket_length|done].
Qed.

Lemma onopen_this w :
  this (onopen w) = set_pingInterval (Some (nextTimer w)) (set_reconnectAttempts 0 (this w)).
Proof. done. Qed.

Lemma onclose_this w :
  this (onclose w) = this w
  \/ (reconnectAttempts (this w) < maxReconnectAttempts (this w)
      /\ isIntentionallyClosed (this w) = false
      /\ this (onclose w) = set_reconnectAttempts (reconnectAttempts (this w) + 1) (this w)).
Proof.
  destruct (decide (isIntentionallyClosed (this w) = false
                    /\ reconnectAttempts (this w) < maxReconnectAttempts (this w)))
    as [[Hflag Hlt]|Hstop].
  - right. by destruct (onclose_retry w Hflag Hlt) as (_ & _ & ? & _).
  - left. destruct (onclose_stop w) as (_ & _ & ? & _); [|done].
    destruct (isIntentionallyClosed (this w)); [by left|right].
    destruct (Z.le_gt_cases (maxReconnectAttempts (this w)) (reconnectAttempts (this w)));
      [done|]. destruct Hstop. split; [done|lia].
Qed.

Lemma onclose_sockets w : sockets (onclose w) = sockets w.
Proof.
  fields_of w. unfold onclose; simpl.
  destruct pi, ic; simpl; try done; by destruct (Z.ltb_spec ra mx).
Qed.

Lemma heartbeat_this w : this (heartbeat w) = this w.
Proof.
  unfold heartbeat. destruct (ws_readyState_is OPEN w); [|done].
  destruct (ws (this w)); [|done]. apply upd_socket_this.
Qed.

Lemma heartbeat_length w : length (sockets (heartbeat w)) = length (sockets w).
Proof.
  unfold heartbeat. destruct (ws_readyState_is OPEN w); [|done].
  destruct (ws (this w)); [|done]. apply upd_socket_length.
Qed.

(** ** The state that is reported *)

Lemma step_session_valid rt fuel e w w' :
  session_valid w -> step rt fuel e w = Some w' -> session_valid w'.
Proof.
  unfold session_valid. intros Hw Hstep.
  destruct e as [| |cb|cb|h|h payload|h|h|id]; simpl in Hstep.
  - injection Hstep as <-. pose proof (connect_length rt w) as Hlen.
    destruct (connect_this rt w) as [-> |[-> Hsk]].
    + intros h Hh. specialize (Hw h Hh). lia.
    + simpl. intros h [= <-]. rewrite Hsk, length_app. simpl. lia.
  - injection Hstep as <-. by rewrite disconnect_ws.
  - by injection Hstep as <-.
  - by injection Hstep as <-.
  - destruct (sockets w !! h) as [s|]; [|done].
    destruct (readyState s); try done. injection Hstep as <-.
    rewrite onopen_this, upd_socket_this. simpl.
    change (sockets (onopen ?x)) with (sockets x). by rewrite upd_socket_length.
  - destruct (sockets w !! h) as [s|]; [|done].
    destruct (readyState s); try done.
    destruct (onmessage rt fuel payload w) as [v|v] eqn:Hmsg; [|done].
    injection Hstep as <-. apply onmessage_session in Hmsg.
    destruct (same_session_fields _ _ Hmsg) as (-> & _).
    by destruct Hmsg as (_ & -> & _).
  - destruct (sockets w !! h); [|done]. by injection Hstep as <-.
  - destruct (sockets w !! h) as [s|]; [|done].
    assert (Hv : w' = onclose (upd_socket h (set_readyState CLOSED) w))
      by (destruct (readyState s); congruence).
    subst w'. rewrite onclose_sockets, upd_socket_length.
    destruct (onclose_this (upd_socket h (set_readyState CLOSED) w)) as [-> |(_ & _ & ->)];
      by rewrite upd_socket_this.
  - destruct (lookup_timer id w) as [[period|delay]|]; [| |done]; injection Hstep as <-.
    + by rewrite heartbeat_this, heartbeat_length.
    + pose proof (connect_length rt (clearTimer id w)) as Hlen.
      destruct (connect_this rt (clearTimer id w)) as [-> |[-> Hsk]].
      * intros h Hh. specialize (Hw h Hh). simpl in *. lia.
      * simpl. intros h [= <-]. rewrite Hsk, length_app. simpl. lia.
Qed.

(** X1.  In every reachable world the session reference is null or names
    an existing socket, so [getConnectionState()] answers one of
    DISCONNECTED, CONNECTING, CONNECTED and CLOSING: the [default] branch
    of its [switch], UNKNOWN, is never taken. *)
Theorem getConnectionState_never_unknown rt w :
  reachable rt w ->
  getConnectionState w <> "UNKNOWN"
  /\ (getConnectionState w = "DISCONNECTED" \/ getConnectionState w = "CONNECTING"
      \/ getConnectionState w = "CONNECTED" \/ getConnectionState w = "CLOSING").
Proof.
  intros Hreach.
  assert (Hvalid : session_valid w).
  { revert w Hreach. apply reachable_invariant.
    - by intros u h.
    - intros fuel e w w'. apply step_session_valid. }
  unfold getConnectionState. destruct (ws (this w)) as [h|] eqn:Hws; [|by auto].
  destruct (lookup_lt_is_Some_2 _ _ (Hvalid h Hws)) as [s ->]. simpl.
  destruct (readyState s); by auto.
Qed.

(** ** The retry budget *)

(** The two ways a close event can end. *)
Lemma onclose_cases w :
  (timers (onclose w) = cleared w /\ this (onclose w) = this w)
  \/ (reconnectAttempts (this w) < maxReconnectAttempts (this w)
      /\ isIntentionallyClosed (this w) = false
      /\ timers (onclose w)
         = (cleared w ++ [(nextTimer w, Timeout (reconnectDelay (this w)))])%list
      /\ this (onclose w) = set_reconnectAttempts (reconnectAttempts (this w) + 1) (this w)).
Proof.
  destruct (decide (isIntentionallyClosed (this w) = false
                    /\ reconnectAttempts (this w) < maxReconnectAttempts (this w)))
    as [[Hflag Hlt]|Hstop].
  - right. by destruct (onclose_retry w Hflag Hlt) as (? & _ & ? & _).
  - left. destruct (onclose_stop w) as (? & _ & ? & _); [|done].
    destruct (isIntentionallyClosed (this w)); [by left|right].
    destruct (Z.le_gt_cases (maxReconnectAttempts (this w)) (reconnectAttempts (this w)));
      [done|]. destruct Hstop. split; [done|lia].
Qed.

Lemma step_budget_ok rt fuel e w w' :
  budget_ok w -> step rt fuel e w = Some w' -> budget_ok w'.
Proof.
  unfold budget_ok. intros (Hra & Hmx & Hdl & Htm) Hstep.
  destruct e as [| |cb|cb|h|h payload|h|h|id]; simpl in Hstep.
  - injection Hstep as <-. destruct (connect_timers rt w) as (-> & _).
    by destruct (connect_this rt w) as [-> |[-> _]].
  - injection Hstep as <-. rewrite disconnect_this, disconnect_timers. simpl.
    split; [done|]. split; [done|]. split; [done|]. by apply cleared_Forall.
  - by injection Hstep as <-.
  - by injection Hstep as <-.
  - destruct (sockets w !! h) as [s|]; [|done].
    destruct (readyState s); try done. injection Hstep as <-.
    destruct (onopen_spec (upd_socket h (set_readyState OPEN) w)) as (_ & _ & -> & _).
    rewrite onopen_this, upd_socket_this, upd_socket_timers. simpl.
    split; [lia|]. split; [done|]. split; [done|].
    apply Forall_app. split; [done|]. constructor; [by left|constructor].
  - destruct (sockets w !! h) as [s|]; [|done].
    destruct (readyState s); try done.
    destruct (onmessage rt fuel payload w) as [v|v] eqn:Hmsg; [|done].
    injection Hstep as <-. apply onmessage_session in Hmsg.
    destruct (same_session_fields _ _ Hmsg) as (_ & -> & -> & -> & _).
    by destruct Hmsg as (_ & _ & -> & _).
  - destruct (sockets w !! h); [|done]. by injection Hstep as <-.
  - destruct (sockets w !! h) as [s|]; [|done].
    set (x := upd_socket h (set_readyState CLOSED) w) in *.
    assert (Hv : w' = onclose x) by (destruct (readyState s); congruence).
    assert (Hxt : Forall (fun e => snd e = Interval 30000 \/ snd e = Timeout 3000)
                         (cleared x)).
    { apply cleared_Forall. unfold x. by rewrite upd_socket_timers. }
    assert (Hxp : this x = this w) by apply upd_socket_this.
    subst w'. destruct (onclose_cases x) as [[-> ->]|(Hlt & _ & -> & ->)];
      rewrite Hxp in *; simpl.
    + done.
    + split; [lia|]. split; [done|]. split; [done|].
      apply Forall_app. split; [done|].
      constructor; [|constructor]. simpl. right. by rewrite Hdl.
  - destruct (lookup_timer id w) as [[period|delay]|]; [| |done]; injection Hstep as <-.
    + destruct (heartbeat_timers w) as (-> & _). by rewrite heartbeat_this.
    + destruct (connect_timers rt (clearTimer id w)) as (-> & _).
      assert (Hf : Forall (fun e => snd e = Interval 30000 \/ snd e = Timeout 3000)
                          (timers (clearTimer id w)))
        by (by apply Forall_filter_keep).
      by destruct (connect_this rt (clearTimer id w)) as [-> |[-> _]].
Qed.

(** X2.  In every reachable world the reconnect counter lies between 0
    and the limit, the limit is 5 and the delay 3000 ms as the constructor
    set them, every scheduled reconnection waits exactly 3000 ms, and every
    heartbeat has period 30000 ms: the backoff is constant and the number
    of attempts since the last successful open is bounded. *)
Theorem retry_budget_is_bounded_and_backoff_constant rt w :
  reachable rt w ->
  0 <= reconnectAttempts (this w) <= maxReconnectAttempts (this w)
  /\ maxReconnectAttempts (this w) = 5
  /\ reconnectDelay (this w) = 3000
  /\ (forall id delay, (id, Timeout delay) ∈ timers w -> delay = 3000)
  /\ (forall id period, (id, Interval period) ∈ timers w -> period = 30000).
Proof.
  intros Hreach.
  assert (Hok : budget_ok w).
  { revert w Hreach. apply reachable_invariant.
    - intros u. unfold budget_ok. simpl.
      split; [lia|]. split; [done|]. split; [done|]. constructor.
    - intros fuel e w w'. apply step_budget_ok. }
  destruct Hok as (Hra & Hmx & Hdl & Htm). rewrite Forall_forall in Htm.
  split; [lia|]. split; [done|]. split; [done|]. split.
  - intros id delay Hin. by destruct (Htm _ Hin) as [[=]|[=]].
  - intros id period Hin. by destruct (Htm _ Hin) as [[=]|[=]].
Qed.

(** ** What the client sends *)

Lemma upd_socket_Forall (P : WebSocket -> Prop) h (f : WebSocket -> WebSocket) w :
  (forall s, P s -> P (f s)) ->
  Forall P (sockets w) -> Forall P (sockets (upd_socket h f w)).
Proof.
  intros Hf Hall. unfold upd_socket.
  destruct (sockets w !! h) as [s|] eqn:Hs; [|done]. simpl.
  apply Forall_insert; [done|]. apply Hf. by eapply Forall_lookup_1.
Qed.

Lemma connect_Forall (P : WebSocket -> Prop) rt w :
  P (mkWebSocket (WS_URL rt) CONNECTING []) ->
  Forall P (sockets w) -> Forall P (sockets (connect rt w)).
Proof.
  intros Hnew Hall. destruct (connect_this rt w) as [Hsame|[_ ->]].
  - unfold connect in *. destruct (ws_readyState_is OPEN w); [done|].
    simpl. apply Forall_app. split; [done|]. by constructor.
  - apply Forall_app. split; [done|]. by constructor.
Qed.

Lemma step_only_pings rt fuel e w w' :
  only_pings w -> step rt fuel e w = Some w' -> only_pings w'.
Proof.
  unfold only_pings. intros Hw Hstep.
  destruct e as [| |cb|cb|h|h payload|h|h|id]; simpl in Hstep.
  - injection Hstep as <-. apply connect_Forall; [constructor|done].
  - injection Hstep as <-. rewrite disconnect_sockets.
    destruct (ws (this w)); [|done]. apply upd_socket_Forall; [|done].
    by intros [u [] fr].
  - by injection Hstep as <-.
  - by injection Hstep as <-.
  - destruct (sockets w !! h) as [s|]; [|done].
    destruct (readyState s); try done. injection Hstep as <-.
    change (sockets (onopen ?x)) with (sockets x).
    by apply upd_socket_Forall.
  - destruct (sockets w !! h) as [s|]; [|done].
    destruct (readyState s); try done.
    destruct (onmessage rt fuel payload w) as [v|v] eqn:Hmsg; [|done].
    injection Hstep as <-. apply onmessage_session in Hmsg.
    by destruct Hmsg as (_ & -> & _).
  - destruct (sockets w !! h); [|done]. by injection Hstep as <-.
  - destruct (sockets w !! h) as [s|]; [|done].
    assert (Hv : w' = onclose (upd_socket h (set_readyState CLOSED) w))
      by (destruct (readyState s); congruence).
    subst w'. rewrite onclose_sockets. by apply upd_socket_Forall.
  - destruct (lookup_timer id w) as [[period|delay]|]; [| |done]; injection Hstep as <-.
    + unfold heartbeat. destruct (ws_readyState_is OPEN w); [|done].
      destruct (ws (this w)); [|done]. apply upd_socket_Forall; [|done].
      intros s Hs. simpl. apply Forall_app. split; [done|]. by constructor.
    + apply connect_Forall; [constructor|done].
Qed.

(** X3.  The only frame the client ever sends is the literal "ping": in
    every reachable world, everything that was handed to [send] on any
    socket is that text. *)
Theorem client_sends_nothing_but_ping rt w :
  reachable rt w ->
  forall h s frame, sockets w !! h = Some s -> frame ∈ sent s -> frame = "ping".
Proof.
  intros Hreach.
  assert (Hok : only_pings w).
  { revert w Hreach. apply reachable_invariant.
    - intros u. constructor.
    - intros fuel e w w'. apply step_only_pings. }
  intros h s frame Hs Hin.
  pose proof (Forall_lookup_1 _ _ _ _ Hok Hs) as Hsent.
  rewrite Forall_forall in Hsent. by apply Hsent.
Qed.

(** ** After [disconnect] *)

Lemma disconnect_parked w : reconnect_pending w = false -> parked (disconnect w).
Proof.
  intros Hpend. unfold parked. rewrite disconnect_flag, disconnect_ws.
  split; [done|]. split; [done|].
  unfold reconnect_pending. rewrite disconnect_timers. by apply cleared_no_timeout.
Qed.

Lemma parked_state w : parked w -> getConnectionState w = "DISCONNECTED".
Proof. intros (_ & Hws & _). unfold getConnectionState. by rewrite Hws. Qed.

(** Whatever the browser delivers to a parked client, it stays parked and
    no socket is created. *)
Lemma parked_step rt fuel e w w' :
  parked w -> environment_event e = true -> step rt fuel e w = Some w' ->
  parked w' /\ length (sockets w') = length (sockets w).
Proof.
  unfold parked. intros (Hflag & Hws & Hpend) Henv Hstep.
  destruct e as [| |cb|cb|h|h payload|h|h|id]; simpl in *; try done.
  - destruct (sockets w !! h) as [s|]; [|done].
    destruct (readyState s); try done. injection Hstep as <-.
    destruct (onopen_spec (upd_socket h (set_readyState OPEN) w)) as (_ & _ & Htm & Hsk).
    rewrite onopen_this, upd_socket_this, Hsk, upd_socket_length. simpl.
    split; [|done]. split; [done|]. split; [done|].
    unfold reconnect_pending. rewrite Htm, upd_socket_timers, existsb_app.
    fold (reconnect_pending w). by rewrite Hpend.
  - destruct (sockets w !! h) as [s|]; [|done].
    destruct (readyState s); try done.
    destruct (onmessage rt fuel payload w) as [v|v] eqn:Hmsg; [|done].
    injection Hstep as <-. apply onmessage_session in Hmsg.
    destruct (same_session_fields _ _ Hmsg) as (-> & _ & _ & _ & -> & _).
    destruct Hmsg as (_ & -> & Htm & _). unfold reconnect_pending. by rewrite Htm.
  - destruct (sockets w !! h); [|done]. by injection Hstep as <-.
  - destruct (sockets w !! h) as [s|]; [|done].
    set (x := upd_socket h (set_readyState CLOSED) w) in *.
    assert (Hv : w' = onclose x) by (destruct (readyState s); congruence).
    assert (Hxp : this x = this w) by apply upd_socket_this.
    subst w'. destruct (onclose_stop x) as (Htm & _ & -> & ->).
    { left. by rewrite Hxp. }
    rewrite Hxp. unfold x at 2. rewrite upd_socket_length.
    split; [|done]. split; [done|]. split; [done|].
    unfold reconnect_pending at 1. rewrite Htm. apply cleared_no_timeout.
    unfold reconnect_pending, x. by rewrite upd_socket_timers.
  - destruct (lookup_timer id w) as [[period|delay]|] eqn:Hid; [| |done].
    + injection Hstep as <-. rewrite heartbeat_not_open; [done|].
      unfold getConnectionState. by rewrite Hws.
    + apply lookup_timer_Some in Hid. apply existsb_false_Forall in Hpend.
      rewrite Forall_forall in Hpend. by specialize (Hpend _ Hid).
Qed.

(** X4.  If no reconnection is scheduled when [disconnect()] is called,
    the disconnect holds: whatever the browser delivers afterwards (late
    events of old sockets, heartbeat ticks), no socket is created, no
    reconnection is scheduled, the flag stays set and
    [getConnectionState()] stays DISCONNECTED, until the application
    calls the client again. *)
Theorem disconnect_holds_when_nothing_is_pending rt fuel w :
  reconnect_pending w = false ->
  forall (evs : list Event) w',
    forallb environment_event evs = true ->
    run rt fuel evs (disconnect w) = Some w' ->
    getConnectionState w' = "DISCONNECTED"
    /\ isIntentionallyClosed (this w') = true
    /\ reconnect_pending w' = false
    /\ length (sockets w') = length (sockets w).
Proof.
  intros Hpend evs w' Henv Hrun.
  assert (Hgen : forall v, parked v -> run rt fuel evs v = Some w' ->
                   parked w' /\ length (sockets w') = length (sockets v)).
  { clear Hrun. induction evs as [|e evs IH]; intros v Hv Hrun; simpl in *.
    - by injection Hrun as <-.
    - apply andb_true_iff in Henv as [He Hevs].
      destruct (step rt fuel e v) as [v1|] eqn:Hstep; [|done].
      destruct (parked_step _ _ _ _ _ Hv He Hstep) as [Hv1 Hlen].
      destruct (IH Hevs v1 Hv1 Hrun) as [Hw' Hlen']. split; [done|congruence]. }
  destruct (Hgen _ (disconnect_parked w Hpend) Hrun) as [Hparked Hlen].
  rewrite disconnect_length in Hlen.
  split; [by apply parked_state|]. by destruct Hparked as (? & _ & ?).
Qed.

(** ** [connect] after [disconnect], and the budget *)

(** X5.  [disconnect()] followed by [connect()] starts a new session from
    any world: the flag is cleared again, one socket is created and is the
    session, the state reads CONNECTING, and the subscriptions, the
    reconnect counter and the timer table are what they were after the
    disconnect (listeners survive a reconnect by hand; the counter is not
    reset by it). *)
Theorem connect_after_disconnect_starts_a_new_session rt w :
  let w' := connect rt (disconnect w) in
  isIntentionallyClosed (this w') = false
  /\ ws (this w') = Some (length (sockets w))
  /\ length (sockets w') = S (length (sockets w))
  /\ getConnectionState w' = "CONNECTING"
  /\ listeners (this w') = listeners (this w)
  /\ reconnectAttempts (this w') = reconnectAttempts (this w)
  /\ timers w' = cleared w.
Proof.
  cbv zeta.
  destruct (connect_not_open rt (disconnect w)) as (Hthis & Hsk & Htm & _).
  { unfold ws_readyState_is. by rewrite disconnect_ws. }
  pose proof (disconnect_length w) as Hlen.
  split; [by rewrite Hthis|]. split; [by rewrite Hthis; simpl; rewrite Hlen|].
  split; [rewrite Hsk, length_app; simpl; lia|]. split.
  { unfold getConnectionState. rewrite Hthis, Hsk. simpl.
    by rewrite lookup_app_r, Nat.sub_diag. }
  rewrite Hthis, Htm, disconnect_this, disconnect_timers. done.
Qed.

(** X6.  [connect()] does not refill the retry budget: only a successful
    open resets the counter.  When the counter has reached the limit, a
    call of [connect()] creates a session, but if that socket closes
    without having opened, nothing is scheduled and the client is
    disconnected again with the counter where it was. *)
Theorem connect_does_not_refill_the_budget rt fuel w :
  ws_readyState_is OPEN w = false ->
  maxReconnectAttempts (this w) <= reconnectAttempts (this w) ->
  reconnectAttempts (this (connect rt w)) = reconnectAttempts (this w)
  /\ exists w', involuntary_close rt fuel (connect rt w) = Some w'
       /\ timers w' = cleared w
       /\ reconnectAttempts (this w') = reconnectAttempts (this w)
       /\ getConnectionState w' = "DISCONNECTED".
Proof.
  intros Hno Hfull.
  destruct (connect_not_open rt w Hno) as (Hthis & Hsk & Htm & Hnt).
  split; [by rewrite Hthis|].
  assert (Hs : sockets (connect rt w) !! length (sockets w)
               = Some (mkWebSocket (WS_URL rt) CONNECTING [])).
  { by rewrite Hsk, lookup_app_r, Nat.sub_diag. }
  unfold involuntary_close.
  replace (ws (this (connect rt w))) with (Some (length (sockets w)))
    by (by rewrite Hthis).
  rewrite (step_close rt fuel _ _ _ Hs) by done.
  set (x := upd_socket (length (sockets w)) (set_readyState CLOSED) (connect rt w)).
  assert (Hxp : this x = this (connect rt w)) by apply upd_socket_this.
  destruct (onclose_stop x) as (Hxt & _ & Hxthis & Hxs).
  { right. rewrite Hxp, Hthis. simpl. lia. }
  eexists. split; [done|]. rewrite Hxthis, Hxp, Hthis. simpl.
  split; [|split; [done|]].
  - rewrite Hxt. unfold cleared, x. rewrite upd_socket_this, upd_socket_timers, Hthis, Htm.
    done.
  - apply (closed_session_state (length (sockets w)) (set_readyState CLOSED
             (mkWebSocket (WS_URL rt) CONNECTING []))); [by rewrite Hxthis, Hxp, Hthis| |done].
    rewrite Hxs. by apply upd_socket_lookup.
Qed.

(** ** A close event and the heartbeat *)

Lemma lookup_timer_None id w :
  lookup_timer id w = None <-> Forall (fun e => fst e <> id) (timers w).
Proof.
  unfold lookup_timer.
  destruct (list_find _ _) as [[i [id' t]]|] eqn:Hfind.
  - split; [done|]. intros Hall. apply list_find_Some in Hfind as (Hi & Hid & _).
    by destruct (Forall_lookup_1 _ _ _ _ Hall Hi).
  - split; [|done]. intros _. by apply list_find_None in Hfind.
Qed.

Lemma cleared_without id w :
  pingInterval (this w) = Some id -> Forall (fun e => fst e <> id) (cleared w).
Proof.
  intros Hid. unfold cleared. rewrite Hid. apply Forall_forall.
  by intros e [? _]%list_elem_of_filter.
Qed.

(** X7.  The close handler stops the timer named by [pingInterval]
    whichever socket has closed.  So when an old socket closes late while
    a newer session is open, that session stays CONNECTED but its
    heartbeat timer is gone from the timer table; [pingInterval] keeps the
    stale handle. *)
Theorem close_of_any_socket_stops_the_heartbeat rt fuel w h id w' :
  reachable rt w ->
  pingInterval (this w) = Some id ->
  step rt fuel (Ev_close h) w = Some w' ->
  lookup_timer id w' = None
  /\ pingInterval (this w') = Some id
  /\ forall hs s, ws (this w) = Some hs -> hs <> h ->
       sockets w !! hs = Some s -> readyState s = OPEN ->
       getConnectionState w' = "CONNECTED".
Proof.
  intros [_ Hping]%reachable_timers_ok Hid Hstep. simpl in Hstep.
  destruct (sockets w !! h) as [sh|] eqn:Hsh; [|done].
  set (x := upd_socket h (set_readyState CLOSED) w) in *.
  assert (Hv : w' = onclose x) by (destruct (readyState sh); congruence).
  assert (Hxp : this x = this w) by apply upd_socket_this.
  assert (Hxid : pingInterval (this x) = Some id) by (by rewrite Hxp).
  subst w'. split; [|split].
  - apply lookup_timer_None.
    destruct (onclose_cases x) as [[-> _]|(_ & _ & -> & _)].
    + by apply cleared_without.
    + apply Forall_app. split; [by apply cleared_without|].
      constructor; [|constructor]. simpl. unfold x. rewrite upd_socket_nextTimer.
      destruct (Hping id Hid) as [Hlt _]. lia.
  - by rewrite onclose_pingInterval.
  - intros hs s Hws Hne Hs Hopen. unfold getConnectionState.
    replace (ws (this (onclose x))) with (Some hs).
    2:{ destruct (onclose_this x) as [-> |(_ & _ & ->)]; by rewrite Hxp. }
    rewrite onclose_sockets. unfold x. rewrite (upd_socket_sockets _ _ _ _ Hsh).
    rewrite list_lookup_insert_ne by done. by rewrite Hs; simpl; rewrite Hopen.
Qed.

(** ** The order of the listeners *)

Lemma Set_elements_app l1 l2 :
  Set_elements (l1 ++ l2) = (Set_elements l1 ++ Set_elements l2)%list.
Proof. apply omap_app. Qed.

Lemma elem_of_Set_elements cb l : cb ∈ Set_elements l <-> Some cb ∈ l.
Proof.
  unfold Set_elements. rewrite list_elem_of_omap. split.
  - by intros ([c|] & Hin & [= ->]).
  - intros Hin. by exists (Some cb).
Qed.

Lemma Set_elements_NoDup l : Set_wf l -> NoDup (Set_elements l).
Proof.
  induction l as [|[c|] l IH]; intros Hwf; simpl.
  - constructor.
  - constructor; [|by apply IH, (Set_wf_tail (Some c))].
    intros [j Hj]%elem_of_Set_elements%list_elem_of_lookup_1.
    by specialize (Hwf 0%nat (S j) c eq_refl Hj).
  - by apply IH, (Set_wf_tail None).
Qed.

Lemma filter_all {A} (P : A -> Prop) `{!forall x, Decision (P x)} (xs : list A) :
  Forall P xs -> filter P xs = xs.
Proof.
  induction 1 as [|x xs Hx _ IH]; [done|]. by rewrite filter_cons_True, IH.
Qed.

Lemma Set_elements_delete cb l :
  Set_wf l -> Set_elements (Set_delete cb l) = filter (fun c => c <> cb) (Set_elements l).
Proof.
  induction l as [|[c|] l IH]; intros Hwf; simpl; [done|..].
  - case_bool_decide as Hc.
    + injection Hc as ->. rewrite filter_cons_False by (by intros ?). simpl.
      symmetry. apply filter_all, Forall_forall.
      intros c [j Hj]%elem_of_Set_elements%list_elem_of_lookup_1 ->.
      by specialize (Hwf 0%nat (S j) cb eq_refl Hj).
    + rewrite filter_cons_True by congruence. simpl.
      by rewrite (IH (Set_wf_tail _ _ Hwf)).
  - by apply IH, (Set_wf_tail None).
Qed.

(** X8.  In every reachable world the listener set holds no callback
    twice; [subscribe] of a callback that is already registered changes
    nothing, [subscribe] of a new one puts it last in the iteration order,
    and calling an unsubscribe handle removes exactly its callback and
    keeps the order of the others. *)
Theorem subscribe_appends_and_unsubscribe_removes rt w cb :
  reachable rt w ->
  NoDup (Set_elements (listeners (this w)))
  /\ (registered cb w -> fst (subscribe cb w) = w)
  /\ (~ registered cb w ->
      Set_elements (listeners (this (fst (subscribe cb w))))
      = (Set_elements (listeners (this w)) ++ [cb])%list)
  /\ Set_elements (listeners (this (unsubscribe cb w)))
     = filter (fun c => c <> cb) (Set_elements (listeners (this w))).
Proof.
  intros Hwf%reachable_Set_wf. split; [by apply Set_elements_NoDup|]. split; [|split].
  - unfold registered. intros Hin. fields_of w. simpl in *.
    unfold upd_this, set_listeners, Set_add. simpl. by rewrite bool_decide_eq_true_2.
  - unfold registered. intros Hout. fields_of w. simpl in *.
    unfold upd_this, set_listeners, Set_add. simpl.
    rewrite bool_decide_eq_false_2 by done. simpl.
    by rewrite Set_elements_app.
  - by apply Set_elements_delete.
Qed.

Lemma subscribe_all_listeners (cbs : list Callback) : forall w,
  NoDup cbs -> (forall c, c ∈ cbs -> Some c ∉ listeners (this w)) ->
  listeners (this (subscribe_all cbs w)) = (listeners (this w) ++ map Some cbs)%list.
Proof.
  induction cbs as [|c cbs IH]; intros w Hnd Hnew.
  - simpl. by rewrite app_nil_r.
  - apply NoDup_cons in Hnd as [Hc Hnd].
    assert (Hadd : listeners (this (fst (subscribe c w)))
                   = (listeners (this w) ++ [Some c])%list).
    { assert (Hc' : Some c ∉ listeners (this w)) by (apply Hnew; by left).
      fields_of w. simpl in *. unfold upd_this, set_listeners, Set_add. simpl.
      by rewrite bool_decide_eq_false_2. }
    change (subscribe_all (c :: cbs) w) with (subscribe_all cbs (fst (subscribe c w))).
    rewrite IH; [|done|].
    + by rewrite Hadd, <- app_assoc.
    + intros c' Hc'. rewrite Hadd, elem_of_app, list_elem_of_singleton.
      intros [Hin|[= ->]]; [|done]. revert Hin. apply Hnew. by right.
Qed.

(** X9.  Listeners are called in the order in which they were
    subscribed: after distinct callbacks have been subscribed on a fresh
    client, a dispatch during which no callback touches the listener set
    returns and has called them first to last. *)
Theorem listeners_are_called_in_subscription_order rt fuel d (u : U) (cbs : list Callback) :
  NoDup cbs ->
  (length cbs <= fuel)%nat ->
  let w := subscribe_all cbs (init u) in
  let w' := world_of (notifyListeners rt fuel d w) in
  untouched (new_calls w w') ->
  notifyListeners rt fuel d w = Done w'
  /\ map inv_cb (new_calls w w') = cbs.
Proof.
  intros Hnd Hfuel w w' Hquiet.
  assert (Hl : listeners (this w) = map Some cbs).
  { subst w. rewrite subscribe_all_listeners; [done|done|].
    intros c _. apply not_elem_of_nil. }
  subst w'. unfold notifyListeners in *.
  destruct (forEach_untouched rt d fuel 0 w)
    as (w' & Hdone & _ & Hcalls); [by rewrite Hl, length_map|done|].
  rewrite Hdone in *. simpl. split; [done|].
  rewrite Hcalls, drop_0, Hl. unfold Set_elements.
  clear. induction cbs as [|c cbs IH]; simpl; [done|]. by f_equal.
Qed.

End Client.

(** * The live events page on top of the client *)

Section LiveEvents.

Context {Data : Type}.

Implicit Types w v : World Data (list Data).
Implicit Types rt : Runtime Data (list Data).
Implicit Types d : Data.

Lemma take_app_take {A} (n : nat) (l m : list A) :
  take n (l ++ take n m) = take n (l ++ m).
Proof.
  rewrite !take_app, take_take. do 2 f_equal. lia.
Qed.

Lemma LiveEvents_listener_take d (l : list Data) :
  LiveEvents_listener d (take 50 l) = take 50 (d :: l).
Proof. apply (take_app_take 50 [d] l). Qed.

Lemma call_listener_user rt c d w :
  user (call_listener rt c d w) = fst (fst (listener_body rt c d (user w))).
Proof.
  unfold call_listener.
  by destruct (listener_body rt c d (user w)) as [[u' es] []].
Qed.

Lemma call_listener_delivered rt c d w :
  delivered (call_listener rt c d w)
  = (delivered w ++ if bool_decide (c = LiveEvents_callback) then [d] else [])%list.
Proof.
  unfold delivered. rewrite call_listener_calls, filter_app, map_app. f_equal.
  rewrite filter_cons. simpl. rewrite filter_nil.
  case_decide; [by rewrite bool_decide_eq_true_2|by rewrite bool_decide_eq_false_2].
Qed.

Lemma call_listener_buffer rt c d w :
  shows_LiveEvents rt -> buffer_ok w -> buffer_ok (call_listener rt c d w).
Proof.
  unfold buffer_ok. intros Hpage Hw.
  rewrite call_listener_user, call_listener_delivered, Hpage.
  case_bool_decide.
  - by rewrite Hw, LiveEvents_listener_take, rev_app_distr.
  - by rewrite app_nil_r.
Qed.

Lemma forEach_buffer rt d fuel : forall j w,
  shows_LiveEvents rt -> buffer_ok w -> buffer_ok (world_of (forEach rt fuel d j w)).
Proof.
  induction fuel as [|fuel IH]; intros j w Hpage Hw; rewrite forEach_unfold;
    destruct (listeners (this w) !! j) as [[c|]|]; simpl; try done.
  - apply IH; [done|]. by apply call_listener_buffer.
  - by apply IH.
Qed.

Lemma step_buffer rt fuel e w w' :
  shows_LiveEvents rt -> buffer_ok w -> step rt fuel e w = Some w' -> buffer_ok w'.
Proof.
  intros Hpage Hw Hstep.
  assert (Hsame : forall v, calls v = calls w -> user v = user w -> buffer_ok v).
  { unfold buffer_ok, delivered in *. by intros v -> ->. }
  destruct e as [| |cb|cb|h|h payload|h|h|id]; simpl in Hstep.
  - injection Hstep as <-. apply Hsame; unfold connect;
      by destruct (ws_readyState_is OPEN w).
  - injection Hstep as <-. fields_of w. unfold disconnect in *; simpl in *.
    apply Hsame; destruct pi, wsr; simpl; unfold upd_socket; simpl;
      repeat case_match; done.
  - injection Hstep as <-. by apply Hsame.
  - injection Hstep as <-. by apply Hsame.
  - destruct (sockets w !! h) as [s|] eqn:Hs; [|done].
    destruct (readyState s); try done. injection Hstep as <-.
    apply Hsame; unfold upd_socket; by rewrite Hs.
  - destruct (sockets w !! h) as [s|]; [|done].
    destruct (readyState s); try done.
    destruct (onmessage rt fuel payload w) as [v|v] eqn:Hrun; [|done].
    injection Hstep as <-. unfold onmessage in Hrun.
    destruct (String.eqb payload "pong"); [by injection Hrun as <-|].
    destruct (JSON_parse rt payload) as [d|].
    + pose proof (forEach_buffer rt d fuel 0 w Hpage Hw) as Hb.
      unfold notifyListeners in Hrun. by rewrite Hrun in Hb.
    + injection Hrun as <-. by apply Hsame.
  - destruct (sockets w !! h); [|done]. injection Hstep as <-. by apply Hsame.
  - destruct (sockets w !! h) as [s|] eqn:Hs; [|done].
    assert (Hv : w' = onclose (upd_socket h (set_readyState CLOSED) w))
      by (destruct (readyState s); congruence).
    subst w'. fields_of w. unfold onclose, upd_socket in *; simpl in *.
    rewrite Hs. apply Hsame; simpl; destruct pi, ic; simpl; try done;
      by destruct (Z.ltb_spec ra mx).
  - destruct (lookup_timer id w) as [[p|dl]|]; [| |done]; injection Hstep as <-.
    + apply Hsame; unfold heartbeat, upd_socket;
        destruct (ws_readyState_is OPEN w); try done;
        destruct (ws (this w)); try done; by case_match.
    + apply Hsame; unfold connect;
        by destruct (ws_readyState_is OPEN (clearTimer id w)).
Qed.

Lemma run_buffer rt fuel evs : forall w w',
  shows_LiveEvents rt -> buffer_ok w -> run rt fuel evs w = Some w' -> buffer_ok w'.
Proof.
  induction evs as [|e evs IH]; intros w w' Hpage Hw Hrun; simpl in Hrun.
  - by injection Hrun as <-.
  - destruct (step rt fuel e w) as [v|] eqn:Hstep; [|done].
    eapply IH; [done| |done]. by eapply step_buffer.
Qed.

(** X10.  Whatever happens to the client (connects, disconnects, socket
    events, timers, other subscribers coming and going), the [events]
    state of the live events page is the list of the messages its listener
    was called with, newest first, cut to the 50 latest. *)
Theorem LiveEvents_keeps_the_fifty_latest_deliveries rt fuel evs w :
  shows_LiveEvents rt ->
  run rt fuel evs (init []) = Some w ->
  user w = take 50 (rev (delivered w)) /\ (length (user w) <= 50)%nat.
Proof.
  intros Hpage Hrun.
  assert (Hb : buffer_ok w) by (by eapply run_buffer; [| |exact Hrun]).
  split; [done|]. rewrite Hb, length_take. lia.
Qed.

End LiveEvents.

(** * A stream of frames *)

Section Frames.

Context {Data U : Type}.

Implicit Types w v : World Data U.
Implicit Types rt : Runtime Data U.
Implicit Types d : Data.

Lemma decoded_cons rt (payload : string) (payloads : list string) :
  decoded rt (payload :: payloads) = (decoded rt [payload] ++ decoded rt payloads)%list.
Proof.
  unfold decoded. change (payload :: payloads) with ([payload] ++ payloads)%list.
  by rewrite filter_app, omap_app.
Qed.

Lemma calls_with_one_message d (tr : list (Invocation Data)) :
  Forall (fun x => inv_data x = d) tr ->
  map (fun x => (inv_cb x, inv_data x)) tr = map (fun cb => (cb, d)) (map inv_cb tr).
Proof.
  induction 1 as [|x tr Hx _ IH]; simpl; [done|]. by rewrite Hx, IH.
Qed.

(** One frame, when no listener body touches the listener set. *)
Lemma onmessage_passive rt fuel (payload : string) w :
  passive rt ->
  (length (listeners (this w)) <= fuel)%nat ->
  exists w' tr,
    onmessage rt fuel payload w = Done w'
    /\ listeners (this w') = listeners (this w)
    /\ same_session w w'
    /\ calls w' = (calls w ++ tr)%list
    /\ map (fun x => (inv_cb x, inv_data x)) tr
       = flat_map (fun d => map (fun cb => (cb, d)) (Set_elements (listeners (this w))))
                  (decoded rt [payload]).
Proof.
  intros Hpassive Hfuel. unfold onmessage, decoded.
  destruct (String.eqb_spec payload "pong") as [->|Hne].
  { exists w, []. rewrite filter_cons_False by (by intros ?).
    split_and!; [done|done|apply same_session_refl|by rewrite app_nil_r|done]. }
  rewrite filter_cons_True by done. simpl.
  destruct (JSON_parse rt payload) as [d|]; simpl.
  - unfold notifyListeners.
    destruct (forEach_untouched rt d fuel 0 w) as (w' & Hdone & Hl & Hcalls);
      [lia|by apply passive_untouched|].
    destruct (forEach_history rt d fuel 0 w) as (tr & Hc & Hd & _).
    pose proof (forEach_session rt d fuel 0 w) as Hs.
    rewrite Hdone in Hc, Hs. simpl in Hc, Hs.
    rewrite (new_calls_app _ _ _ Hc), drop_0 in Hcalls.
    exists w', tr. split_and!; try done.
    by rewrite app_nil_r, (calls_with_one_message d), Hcalls.
  - eexists _, []. split_and!; [done|done|done|by rewrite app_nil_r|done].
Qed.

Lemma frames_passive rt fuel h s : forall (payloads : list string) w,
  passive rt ->
  sockets w !! h = Some s -> readyState s = OPEN ->
  (length (listeners (this w)) <= fuel)%nat ->
  exists w' tr,
    run rt fuel (map (Ev_message h) payloads) w = Some w'
    /\ listeners (this w') = listeners (this w)
    /\ same_session w w'
    /\ calls w' = (calls w ++ tr)%list
    /\ map (fun x => (inv_cb x, inv_data x)) tr
       = flat_map (fun d => map (fun cb => (cb, d)) (Set_elements (listeners (this w))))
                  (decoded rt payloads).
Proof.
  induction payloads as [|p ps IH]; intros w Hpassive Hs Hopen Hfuel.
  { exists w, []. split_and!; [done|done|apply same_session_refl|by rewrite app_nil_r|done]. }
  destruct (onmessage_passive rt fuel p w Hpassive Hfuel)
    as (w1 & tr1 & Hrun1 & Hl1 & Hs1 & Hc1 & Htr1).
  destruct (IH w1 Hpassive) as (w' & tr & Hrun & Hl & Hss & Hc & Htr).
  { destruct Hs1 as (_ & -> & _). exact Hs. }
  { exact Hopen. }
  { by rewrite Hl1. }
  exists w', (tr1 ++ tr)%list. simpl map. cbn [run step]. rewrite Hs, Hopen, Hrun1.
  split_and!.
  - exact Hrun.
  - by rewrite Hl, Hl1.
  - by eapply same_session_trans.
  - by rewrite Hc, Hc1, <- app_assoc.
  - rewrite map_app, Htr1, Htr, Hl1, (decoded_cons rt p ps). by rewrite flat_map_app.
Qed.

(** X11.  A stream of frames on an open socket, when no listener body
    subscribes or unsubscribes and the application calls nothing in
    between: every frame is taken in, the socket stays open, and the
    calls made are, frame after frame in the order of arrival, one call of
    each registered listener in subscription order with the decoded
    message; the [pong] frames and the frames that [JSON.parse] rejects
    cause no call, and no decoded message is lost or delivered twice. *)
Theorem frames_reach_every_listener_in_order rt fuel h s (payloads : list string) w :
  passive rt ->
  sockets w !! h = Some s -> readyState s = OPEN ->
  (length (listeners (this w)) <= fuel)%nat ->
  exists w',
    run rt fuel (map (Ev_message h) payloads) w = Some w'
    /\ map (fun x => (inv_cb x, inv_data x)) (new_calls w w')
       = flat_map (fun d => map (fun cb => (cb, d)) (Set_elements (listeners (this w))))
                  (decoded rt payloads)
    /\ listeners (this w') = listeners (this w)
    /\ sockets w' = sockets w
    /\ getConnectionState w' = getConnectionState w.
Proof.
  intros Hpassive Hs Hopen Hfuel.
  destruct (frames_passive rt fuel h s payloads w Hpassive Hs Hopen Hfuel)
    as (w' & tr & Hrun & Hl & Hss & Hc & Htr).
  exists w'. split_and!; [done| |done| |].
  - by rewrite (new_calls_app _ _ _ Hc).
  - by destruct Hss as (_ & ? & _).
  - by apply same_session_getConnectionState.
Qed.

End Frames.

(** * What the live events page derives from its events *)

Section Derived.

Implicit Types events : list SafetyEvent.
Implicit Types event : SafetyEvent.
Implicit Types level : Z.
Implicit Types t : string.

(** The events of one level. *)
Lemma severityCounts_from (acc : gmap Z nat) events level :
  default 0%nat
    (fold_left
       (fun acc event => <[severity event := (default 0 (acc !! severity event) + 1)%nat]> acc)
       events acc !! level)
  = (default 0 (acc !! level)
     + length (filter (fun event => severity event = level) events))%nat.
Proof.
  revert acc. induction events as [|event events IH]; intros acc; simpl.
  - rewrite ?filter_nil. simpl. lia.
  - rewrite IH, filter_cons, lookup_insert.
    destruct (decide (severity event = level)) as [->|Hne]; simpl; lia.
Qed.

Lemma five_levels events :
  Forall (fun event => 1 <= severity event <= 5) events ->
  (length (filter (fun event => severity event = 1%Z) events)
   + length (filter (fun event => severity event = 2%Z) events)
   + length (filter (fun event => severity event = 3%Z) events)
   + length (filter (fun event => severity event = 4%Z) events)
   + length (filter (fun event => severity event = 5%Z) events))%nat
  = length events.
Proof.
  induction 1 as [|event events Hev _ IH]; [done|].
  rewrite !filter_cons. simpl length. rewrite <- IH.
  repeat case_decide; simpl; lia.
Qed.

(** X12.  The number on the tile of a level is the number of events of
    that level in the list, hence the number of cards left when the
    severity filter is set to that level and the type filter to all; when
    every event has a level from 1 to 5 the five tiles add up to the
    number of events. *)
Theorem severity_tiles_count_the_events parseInt events :
  (forall level, tile events level
                 = length (filter (fun event => severity event = level) events))
  /\ (forall flt level,
        filter_severity flt <> "all" -> parseInt (filter_severity flt) = Some level ->
        filter_type flt = "all" ->
        length (filteredEvents parseInt flt events) = tile events level)
  /\ (Forall (fun event => 1 <= severity event <= 5) events ->
      (tile events 1 + tile events 2 + tile events 3 + tile events 4 + tile events 5)%nat
      = length events).
Proof.
  assert (Htile : forall level, tile events level
            = length (filter (fun event => severity event = level) events)).
  { intros level. unfold tile, severityCounts. by rewrite severityCounts_from, lookup_empty. }
  split; [done|]. split.
  - intros [sev ty] level Hsev Hparse Hty. simpl in *. subst ty.
    rewrite Htile. unfold filteredEvents. simpl. rewrite Hparse.
    apply String.eqb_neq in Hsev. rewrite Hsev. simpl.
    clear. induction events as [|event events IH]; [done|].
    rewrite filter_cons. simpl.
    destruct (decide (severity event = level)) as [->|Hne].
    + rewrite bool_decide_eq_true_2 by done. simpl. by rewrite IH.
    + rewrite bool_decide_eq_false_2 by congruence. simpl. by rewrite IH.
  - intros Hlevels. rewrite !Htile. by apply five_levels.
Qed.

(** The [Set] built from a list keeps the first occurrence of each value. *)
Lemma Set_from_first_occurrences (ts : list string) : forall acc : list string,
  fold_left (fun set t => if bool_decide (t ∈ set) then set else set ++ [t])%list ts acc
  = (acc ++ filter (fun t => t ∉ acc) (first_occurrences ts))%list.
Proof.
  induction ts as [|t ts IH]; intros acc; simpl.
  - by rewrite filter_nil, app_nil_r.
  - rewrite IH, filter_cons, list_filter_filter. case_bool_decide as Hin.
    + rewrite decide_False by (by intros ?). f_equal.
      apply list_filter_iff. intros t'. split; [|by intros [? _]].
      intros Hout. split; [done|]. by intros ->.
    + rewrite decide_True by done. rewrite <- app_assoc. simpl. do 2 f_equal.
      apply list_filter_iff. intros t'.
      rewrite elem_of_app, list_elem_of_singleton. tauto.
Qed.

Lemma uniqueTypes_first_occurrences events :
  uniqueTypes events = first_occurrences (map type events).
Proof.
  unfold uniqueTypes. rewrite Set_from_first_occurrences. simpl.
  apply filter_all, Forall_forall. intros t _. apply not_elem_of_nil.
Qed.

Lemma first_occurrences_elem_of (ts : list string) t :
  t ∈ first_occurrences ts <-> t ∈ ts.
Proof.
  induction ts as [|t' ts IH]; simpl; [done|].
  rewrite !elem_of_cons, list_elem_of_filter, IH.
  destruct (decide (t = t')); tauto.
Qed.

Lemma first_occurrences_NoDup (ts : list string) : NoDup (first_occurrences ts).
Proof.
  induction ts as [|t ts IH]; simpl; constructor.
  - by intros [? _]%list_elem_of_filter.
  - by apply NoDup_filter.
Qed.

(** X13.  The type filter offers every type that occurs among the events,
    each once and no other; the types come in the order of their first
    occurrence, so a new event, which is put in front of the list, moves
    its type to the first place and leaves the order of the others. *)
Theorem uniqueTypes_lists_each_type_once events :
  NoDup (uniqueTypes events)
  /\ (forall t, t ∈ uniqueTypes events <-> exists event, event ∈ events /\ type event = t)
  /\ (forall event,
        uniqueTypes (event :: events)
        = type event :: filter (fun t => t <> type event) (uniqueTypes events)).
Proof.
  split; [|split].
  - rewrite uniqueTypes_first_occurrences. apply first_occurrences_NoDup.
  - intros t. rewrite uniqueTypes_first_occurrences, first_occurrences_elem_of,
      list_elem_of_fmap.
    split; intros (event & ? & ?); by exists event.
  - intros event. by rewrite !uniqueTypes_first_occurrences.
Qed.

Lemma filteredEvents_all_severities parseInt t events :
  t <> "all" ->
  filteredEvents parseInt (mkFilter "all" t) events
  = filter (fun event => type event = t) events.
Proof.
  intros Ht%String.eqb_neq. unfold filteredEvents. simpl. rewrite Ht. simpl.
  induction events as [|event events IH]; [done|].
  rewrite filter_cons. simpl. rewrite IH.
  destruct (String.eqb_spec (type event) t) as [Heq|Hne]; simpl.
  - by rewrite decide_True.
  - by rewrite decide_False.
Qed.

(** X14.  With both filters on all, every event is shown.  With the
    severity filter on all and the type filter on a type other than the
    word all, exactly the events of that type are shown, in their order,
    and for a type offered by the filter there is at least one.  When
    [parseInt] cannot read the severity filter, no event is shown. *)
Theorem type_filter_shows_the_events_of_that_type parseInt events :
  filteredEvents parseInt (mkFilter "all" "all") events = events
  /\ (forall t, t <> "all" ->
        filteredEvents parseInt (mkFilter "all" t) events
        = filter (fun event => type event = t) events
        /\ (t ∈ uniqueTypes events ->
            filteredEvents parseInt (mkFilter "all" t) events <> []))
  /\ (forall flt, filter_severity flt <> "all" -> parseInt (filter_severity flt) = None ->
        filteredEvents parseInt flt events = []).
Proof.
  split; [|split].
  - unfold filteredEvents. simpl. induction events as [|event events IH]; [done|].
    simpl. by rewrite IH.
  - intros t Ht. rewrite filteredEvents_all_severities by done. split; [done|].
    rewrite uniqueTypes_first_occurrences, first_occurrences_elem_of, list_elem_of_fmap.
    intros (event & -> & Hev) Hnone.
    assert (Hin : event ∈ filter (fun e => type e = type event) events)
      by (by apply list_elem_of_filter).
    rewrite Hnone in Hin. by apply elem_of_nil in Hin.
  - intros [sev ty] Hsev%String.eqb_neq Hnan. simpl in *.
    unfold filteredEvents. simpl. rewrite Hsev, Hnan. simpl.
    induction events as [|event events IH]; [done|]. simpl. exact IH.
Qed.

End Derived.

(** * The status shown by the top bar *)

Section Topbar.

Context {Data U : Type}.

(** X15.  The top bar always has a label and a colour for what
    [getConnectionState()] answers: both tables have an entry for each of
    its five answers, and for the initial status.  For a client in a
    reachable world the entries for UNKNOWN are never the ones shown. *)
Theorem Topbar_has_a_label_for_every_state (rt : Runtime Data U) (w : World Data U) :
  (exists label colour,
      property statusLabels (Topbar_tick w) = Some label
      /\ property statusColors (Topbar_tick w) = Some colour)
  /\ property statusLabels Topbar_initial = Some "Disconnected"
  /\ property statusColors Topbar_initial = Some "bg-red-500"
  /\ (reachable rt w ->
      property statusLabels (Topbar_tick w) <> Some "Unknown"
      /\ property statusColors (Topbar_tick w) <> Some "bg-gray-500").
Proof.
  unfold Topbar_tick, getConnectionState. split; [|split; [done|split; [done|]]].
  - destruct (ws (this w)) as [h|]; [|by eexists _, _].
    destruct (sockets w !! h) as [s|]; simpl; [|by eexists _, _].
    destruct (readyState s); by eexists _, _.
  - intros Hreach.
    assert (Hvalid : session_valid w).
    { revert w Hreach. apply reachable_invariant.
      - by intros u h.
      - intros fuel e w w'. apply step_session_valid. }
    destruct (ws (this w)) as [h|] eqn:Hws; [|done].
    destruct (lookup_lt_is_Some_2 _ _ (Hvalid h Hws)) as [s ->]. simpl.
    by destruct (readyState s).
Qed.

End Topbar.

(** * Mounting and unmounting the page *)

Section Mount.

Context {Data U : Type}.

Implicit Types w : World Data U.
Implicit Types rt : Runtime Data U.

Lemma connect_state rt w :
  getConnectionState (connect rt w) = "CONNECTING"
  \/ getConnectionState (connect rt w) = "CONNECTED".
Proof.
  destruct (ws_readyState_is OPEN w) eqn:Hopen.
  - right. rewrite connect_open by done.
    unfold ws_readyState_is, getConnectionState in *.
    destruct (ws (this w)) as [h|]; [|done].
    destruct (sockets w !! h) as [s|]; [|done]. simpl.
    apply bool_decide_eq_true in Hopen. by rewrite Hopen.
  - left. destruct (connect_not_open rt w Hopen) as (Hthis & Hsk & _).
    unfold getConnectionState. rewrite Hthis, Hsk. simpl.
    by rewrite lookup_app_r, Nat.sub_diag.
Qed.

(** X16.  Mounting the page and unmounting it again leaves the listener
    set with the elements it had, the page's listener not among them.
    The cleanup closes nothing: the sockets and timers are those left by
    the [connect()] of the mount, and the client is still connecting or
    connected. *)
Theorem page_cleanup_removes_the_listener_and_keeps_the_connection rt w :
  reachable rt w ->
  ~ registered LiveEvents_callback w ->
  let w' := LiveEvents_cleanup (LiveEvents_mount rt w) in
  Set_elements (listeners (this w')) = Set_elements (listeners (this w))
  /\ ~ registered LiveEvents_callback w'
  /\ sockets w' = sockets (connect rt w)
  /\ timers w' = timers w
  /\ (getConnectionState w' = "CONNECTING" \/ getConnectionState w' = "CONNECTED").
Proof.
  intros Hwf%reachable_Set_wf Hout. unfold registered in Hout.
  pose proof (connect_listeners rt w) as Hl.
  pose proof (connect_state rt w) as Hstate.
  destruct (connect_timers rt w) as (Htm & _).
  unfold LiveEvents_cleanup, LiveEvents_mount.
  set (v := connect rt w) in *. clearbody v.
  assert (Hadd : Set_add LiveEvents_callback (listeners (this v))
                 = (listeners (this w) ++ [Some LiveEvents_callback])%list).
  { unfold Set_add. rewrite Hl. by rewrite bool_decide_eq_false_2. }
  assert (Hwf' : Set_wf (Set_add LiveEvents_callback (listeners (this v))))
    by (rewrite Hl; by apply Set_add_wf).
  fields_of v. simpl in *. unfold registered. simpl. split_and!; try done.
  - rewrite Set_elements_delete by done. rewrite Hadd, Set_elements_app. simpl.
    rewrite filter_app, filter_cons_False, filter_nil, app_nil_r by (by intros ?).
    apply filter_all, Forall_forall. intros c Hc%elem_of_Set_elements ->. done.
  - by apply Set_delete_gone.
Qed.

End Mount.

(** * Examples for the further properties *)

(** X1, witness: the client after [connect()] and the open event. *)
Lemma getConnectionState_never_unknown_witness :
  reachable host_idle open_client /\ getConnectionState open_client <> "UNKNOWN".
Proof.
  assert (Hreach : reachable host_idle open_client).
  { exists 0%nat, 0%nat, [Call_connect; Ev_open 0%nat]. vm_compute. reflexivity. }
  split; [exact Hreach|].
  exact (proj1 (getConnectionState_never_unknown host_idle open_client Hreach)).
Defined.

(** X2, witness: the same client; its only timer is the heartbeat. *)
Lemma retry_budget_is_bounded_and_backoff_constant_witness :
  reachable host_idle open_client
  /\ 0 <= reconnectAttempts (this open_client) <= maxReconnectAttempts (this open_client)
  /\ forall id period, (id, Interval period) ∈ timers open_client -> period = 30000.
Proof.
  assert (Hreach : reachable host_idle open_client).
  { exists 0%nat, 0%nat, [Call_connect; Ev_open 0%nat]. vm_compute. reflexivity. }
  destruct (retry_budget_is_bounded_and_backoff_constant host_idle open_client Hreach)
    as (Hbudget & _ & _ & _ & Hperiod).
  split; [exact Hreach|]. split; [exact Hbudget|exact Hperiod].
Defined.

(** X3, witness: the heartbeat has fired twice on an open session. *)
Lemma client_sends_nothing_but_ping_witness :
  exists w, run host_idle 0 [Call_connect; Ev_open 0%nat; Ev_timer 1; Ev_timer 1] (init 0%nat)
            = Some w
    /\ (sent <$> sockets w !! 0%nat) = Some ["ping"; "ping"]
    /\ forall h s frame, sockets w !! h = Some s -> frame ∈ sent s -> frame = "ping".
Proof.
  destruct (run host_idle 0 [Call_connect; Ev_open 0%nat; Ev_timer 1; Ev_timer 1]
              (init 0%nat)) as [w|] eqn:Hrun; [|by vm_compute in Hrun].
  exists w. split; [reflexivity|].
  split; [vm_compute in Hrun; by injection Hrun as <-|].
  apply (client_sends_nothing_but_ping host_idle w). do 3 eexists. exact Hrun.
Defined.

(** X4, witness: an open client disconnects; the close and an error of
    its socket follow, and the heartbeat handle is dead. *)
Lemma disconnect_holds_when_nothing_is_pending_witness :
  reconnect_pending open_client = false
  /\ exists w', run host_idle 0 [Ev_close 0%nat; Ev_error 0%nat] (disconnect open_client)
                = Some w'
       /\ getConnectionState w' = "DISCONNECTED".
Proof.
  split; [reflexivity|].
  destruct (run host_idle 0 [Ev_close 0%nat; Ev_error 0%nat] (disconnect open_client))
    as [w'|] eqn:Hrun; [|by vm_compute in Hrun].
  exists w'. split; [reflexivity|].
  exact (proj1 (disconnect_holds_when_nothing_is_pending host_idle 0 open_client
                  eq_refl [Ev_close 0%nat; Ev_error 0%nat] w' eq_refl Hrun)).
Defined.

(** X6, witness: the client that has used up its five attempts. *)
Lemma connect_does_not_refill_the_budget_witness :
  exists w, consecutive_closes host_idle 0 6 connecting_client = Some w
    /\ ws_readyState_is OPEN w = false
    /\ reconnectAttempts (this w) = 5
    /\ reconnectAttempts (this (connect host_idle w)) = 5.
Proof.
  destruct (consecutive_closes host_idle 0 6 connecting_client) as [w|] eqn:Hw;
    [|by vm_compute in Hw].
  exists w. split; [reflexivity|].
  assert (Hclosed : ws_readyState_is OPEN w = false)
    by (vm_compute in Hw; by injection Hw as <-).
  assert (Hfive : reconnectAttempts (this w) = 5)
    by (vm_compute in Hw; by injection Hw as <-).
  assert (Hmax : maxReconnectAttempts (this w) = 5)
    by (vm_compute in Hw; by injection Hw as <-).
  split; [exact Hclosed|]. split; [exact Hfive|].
  destruct (connect_does_not_refill_the_budget host_idle 0 w Hclosed) as [Hsame _];
    [lia|].
  by rewrite Hsame.
Defined.

(** X7, witness: [connect()] is called twice, the second socket opens and
    the first one, which nobody closed, closes afterwards: the session
    stays CONNECTED without its heartbeat timer. *)
Lemma close_of_any_socket_stops_the_heartbeat_witness :
  exists w w',
    run host_idle 0 [Call_connect; Call_connect; Ev_open 1%nat] (init 0%nat) = Some w
    /\ step host_idle 0 (Ev_close 0%nat) w = Some w'
    /\ getConnectionState w = "CONNECTED"
    /\ lookup_timer 1 w = Some (Interval 30000)
    /\ getConnectionState w' = "CONNECTED"
    /\ lookup_timer 1 w' = None.
Proof.
  destruct (run host_idle 0 [Call_connect; Call_connect; Ev_open 1%nat] (init 0%nat))
    as [w|] eqn:Hrun; [|by vm_compute in Hrun].
  destruct (step host_idle 0 (Ev_close 0%nat) w) as [w'|] eqn:Hstep;
    [|vm_compute in Hrun; injection Hrun as <-; by vm_compute in Hstep].
  exists w, w'.
  assert (Hreach : reachable host_idle w) by (do 3 eexists; exact Hrun).
  assert (Hid : pingInterval (this w) = Some 1%positive)
    by (vm_compute in Hrun; by injection Hrun as <-).
  destruct (close_of_any_socket_stops_the_heartbeat host_idle 0 w 0%nat 1 w'
              Hreach Hid Hstep) as (Hgone & _ & Hstate).
  split; [reflexivity|]. split; [exact Hstep|].
  split; [vm_compute in Hrun; by injection Hrun as <-|].
  split; [vm_compute in Hrun; by injection Hrun as <-|].
  split; [|exact Hgone].
  apply (Hstate 1%nat (mkWebSocket "ws://localhost:8000/ws/events" OPEN [])); try done;
    vm_compute in Hrun; by injection Hrun as <-.
Defined.

(** X8, witness: three listeners; the middle one unsubscribes, a fourth
    one subscribes. *)
Lemma subscribe_appends_and_unsubscribe_removes_witness :
  reachable host_idle three_listeners
  /\ Set_elements (listeners (this (unsubscribe 1%nat three_listeners))) = [0%nat; 2%nat]
  /\ Set_elements (listeners (this (fst (subscribe 7%nat three_listeners))))
     = [0%nat; 1%nat; 2%nat; 7%nat].
Proof.
  assert (Hreach : reachable host_idle three_listeners).
  { exists 0%nat, 0%nat,
      [Call_subscribe 0%nat; Call_subscribe 1%nat; Call_subscribe 2%nat].
    reflexivity. }
  split; [exact Hreach|].
  destruct (subscribe_appends_and_unsubscribe_removes host_idle three_listeners 1%nat Hreach)
    as (_ & _ & _ & Hdel).
  destruct (subscribe_appends_and_unsubscribe_removes host_idle three_listeners 7%nat Hreach)
    as (_ & _ & Hadd & _).
  split.
  - rewrite Hdel. vm_compute. reflexivity.
  - rewrite Hadd; [vm_compute; reflexivity|].
    unfold registered, three_listeners. simpl.
    intros Hin. repeat (apply elem_of_cons in Hin as [[=]|Hin]).
    by apply elem_of_nil in Hin.
Defined.

(** X9, witness: three listeners subscribed in the order 2, 0, 1. *)
Lemma listeners_are_called_in_subscription_order_witness :
  map inv_cb
    (new_calls (subscribe_all [2%nat; 0%nat; 1%nat] (init 0%nat))
       (world_of (notifyListeners host_idle 3 JNull
                    (subscribe_all [2%nat; 0%nat; 1%nat] (init 0%nat)))))
  = [2%nat; 0%nat; 1%nat].
Proof.
  apply (listeners_are_called_in_subscription_order host_idle 3 JNull 0%nat
           [2%nat; 0%nat; 1%nat]).
  - apply (bool_decide_unpack _). vm_compute. exact I.
  - simpl. lia.
  - vm_compute. repeat constructor.
Defined.

(** X10, witness: the page subscribes, the socket opens, two messages
    arrive. *)
Lemma LiveEvents_keeps_the_fifty_latest_deliveries_witness :
  exists w,
    run host_LiveEvents 1
        [Call_connect; Call_subscribe LiveEvents_callback; Ev_open 0%nat;
         Ev_message 0%nat "{}"; Ev_message 0%nat "[]"] (init [])
    = Some w
    /\ user w = [JArray []; JObject []]
    /\ user w = take 50 (rev (delivered w)).
Proof.
  destruct (run host_LiveEvents 1
              [Call_connect; Call_subscribe LiveEvents_callback; Ev_open 0%nat;
               Ev_message 0%nat "{}"; Ev_message 0%nat "[]"] (init []))
    as [w|] eqn:Hrun; [|by vm_compute in Hrun].
  exists w. split; [reflexivity|].
  split; [vm_compute in Hrun; by injection Hrun as <-|].
  assert (Hpage : shows_LiveEvents host_LiveEvents) by (intros cb d events; reflexivity).
  exact (proj1 (LiveEvents_keeps_the_fifty_latest_deliveries host_LiveEvents 1 _ w
                  Hpage Hrun)).
Defined.

(** X16, witness: the page is mounted on a fresh client and unmounted. *)
Lemma page_cleanup_removes_the_listener_and_keeps_the_connection_witness :
  Set_elements
    (listeners (this (LiveEvents_cleanup (LiveEvents_mount host_idle (init 0%nat))))) = []
  /\ getConnectionState (LiveEvents_cleanup (LiveEvents_mount host_idle (init 0%nat)))
     = "CONNECTING".
Proof.
  destruct (page_cleanup_removes_the_listener_and_keeps_the_connection
              host_idle (init 0%nat)) as (Hl & _ & _ & _ & _).
  - by exists 0%nat, 0%nat, [].
  - apply not_elem_of_nil.
  - split; [exact Hl|]. vm_compute. reflexivity.
Defined.

(** * The retry budget from any reachable session *)

Section Budget.

Context {Data U : Type}.

Implicit Types w : World Data U.
Implicit Types rt : Runtime Data U.

Lemma step_flag_ok rt fuel e w w' :
  flag_ok w -> step rt fuel e w = Some w' -> flag_ok w'.
Proof.
  unfold flag_ok. intros Hw Hstep.
  destruct e as [| |cb|cb|h|h payload|h|h|id]; simpl in Hstep.
  - injection Hstep as <-. by destruct (connect_this rt w) as [-> |[-> _]].
  - injection Hstep as <-. by rewrite disconnect_ws.
  - by injection Hstep as <-.
  - by injection Hstep as <-.
  - destruct (sockets w !! h) as [s|]; [|done].
    destruct (readyState s); try done. injection Hstep as <-.
    rewrite onopen_this, upd_socket_this. exact Hw.
  - destruct (sockets w !! h) as [s|]; [|done].
    destruct (readyState s); try done.
    destruct (onmessage rt fuel payload w) as [v|v] eqn:Hmsg; [|done].
    injection Hstep as <-. apply onmessage_session in Hmsg.
    by destruct (same_session_fields _ _ Hmsg) as (-> & _ & _ & _ & -> & _).
  - destruct (sockets w !! h); [|done]. by injection Hstep as <-.
  - destruct (sockets w !! h) as [s|]; [|done].
    assert (Hv : w' = onclose (upd_socket h (set_readyState CLOSED) w))
      by (destruct (readyState s); congruence).
    subst w'.
    destruct (onclose_this (upd_socket h (set_readyState CLOSED) w)) as [-> |(_ & _ & ->)];
      rewrite upd_socket_this; exact Hw.
  - destruct (lookup_timer id w) as [[period|delay]|]; [| |done]; injection Hstep as <-.
    + by rewrite heartbeat_this.
    + by destruct (connect_this rt (clearTimer id w)) as [-> |[-> _]].
Qed.

Lemma reachable_flag_ok rt w : reachable rt w -> flag_ok w.
Proof.
  revert w. apply reachable_invariant.
  - by intros u h.
  - intros fuel e w w'. apply step_flag_ok.
Qed.

Lemma reachable_budget_ok rt w : reachable rt w -> budget_ok w.
Proof.
  revert w. apply reachable_invariant.
  - intros u. unfold budget_ok. simpl.
    split; [lia|]. split; [done|]. split; [done|]. constructor.
  - intros fuel e w w'. apply step_budget_ok.
Qed.

(** C4 (as amended).  Take any state the client can reach in which the
    reconnect counter is 0, no reconnection is scheduled, and the
    session's socket is the only socket of the client that is not closed
    (a new client after [connect()], or a session that has opened with
    nothing left over from earlier ones).  Each of the first five
    involuntary closes in a row leaves the client disconnected with a
    reconnection scheduled, the counter at the number of closes so far.
    The sixth close, which is the failure of the fifth reconnection,
    schedules nothing: five reconnections have been attempted, and from
    then on whatever the browser still delivers, no socket is created, no
    reconnection is scheduled and [getConnectionState()] stays
    DISCONNECTED; only a call by the application can change that. *)
Theorem reconnection_stops_after_five_attempts rt fuel w :
  reachable rt w ->
  reconnectAttempts (this w) = 0 ->
  reconnect_pending w = false ->
  (exists h s, ws (this w) = Some h /\ sockets w !! h = Some s
     /\ readyState s <> CLOSED
     /\ forall h' s', h' <> h -> sockets w !! h' = Some s' -> readyState s' = CLOSED) ->
  (forall n, (1 <= n <= 5)%nat ->
     exists w', consecutive_closes rt fuel n w = Some w'
       /\ reconnect_pending w' = true
       /\ reconnectAttempts (this w') = Z.of_nat n
       /\ getConnectionState w' = "DISCONNECTED")
  /\ exists w6, consecutive_closes rt fuel 6 w = Some w6
       /\ reconnect_pending w6 = false
       /\ getConnectionState w6 = "DISCONNECTED"
       /\ length (sockets w6) = (length (sockets w) + 5)%nat
       /\ forall (evs : list Event) w',
            forallb environment_event evs = true ->
            run rt fuel evs w6 = Some w' ->
            getConnectionState w' = "DISCONNECTED"
            /\ reconnect_pending w' = false
            /\ sockets w' = sockets w6.
Proof.
  intros Hreach Hzero Hpend Hsole.
  apply closes_of_a_session_under_way.
  destruct Hsole as (h & s & Hws & Hs & Hlive & Hothers).
  destruct (reachable_timers_ok rt w Hreach) as [Hfresh _].
  destruct (reachable_budget_ok rt w Hreach) as (_ & Hmax & _).
  pose proof (reachable_flag_ok rt w Hreach h Hws) as Hflag.
  unfold awaiting. split_and!; try done. by exists h, s.
Qed.

End Budget.

(** * Further examples *)

(** C4, witness: a new client that has called [connect()]. *)
Lemma reconnection_stops_after_five_attempts_witness :
  reachable host_idle connecting_client
  /\ reconnectAttempts (this connecting_client) = 0
  /\ reconnect_pending connecting_client = false
  /\ exists w6, consecutive_closes host_idle 0 6 connecting_client = Some w6
       /\ reconnect_pending w6 = false
       /\ getConnectionState w6 = "DISCONNECTED".
Proof.
  assert (Hreach : reachable host_idle connecting_client).
  { exists 0%nat, 0%nat, [Call_connect]. reflexivity. }
  split; [exact Hreach|]. split; [reflexivity|]. split; [reflexivity|].
  destruct (reconnection_stops_after_five_attempts host_idle 0 connecting_client
              Hreach eq_refl eq_refl)
    as (_ & w6 & Hrun & Hpend & Hstate & _).
  - exists 0%nat, (mkWebSocket "ws://localhost:8000/ws/events" CONNECTING []).
    split_and!; [reflexivity|reflexivity|discriminate|].
    by intros [|[|h']] s' Hne Hs'.
  - exists w6. split_and!; assumption.
Defined.

(** C5, counterexample.  Listeners 0, 1 and 2 are subscribed, the client
    connects and its socket opens.  A frame arrives that is not pong and
    that [JSON.parse] accepts.  Listener 0 unsubscribes listener 1 from
    inside its callback: the handler returns, listeners 0 and 2 have been
    invoked with the decoded object, and listener 1, registered when the
    frame arrived, has not been invoked. *)
Lemma json_frame_misses_a_registered_listener :
  "{}" <> "pong"
  /\ JSON_parse host_unsubscribing "{}" = Some (JObject [])
  /\ exists w w',
       run host_unsubscribing 3
         [Call_subscribe 0%nat; Call_subscribe 1%nat; Call_subscribe 2%nat;
          Call_connect; Ev_open 0] (init 0%nat) = Some w
       /\ registered 0%nat w /\ registered 1%nat w /\ registered 2%nat w
       /\ onmessage host_unsubscribing 3 "{}" w = Done w'
       /\ step host_unsubscribing 3 (Ev_message 0 "{}") w = Some w'
       /\ map (fun x => (inv_cb x, inv_data x)) (new_calls w w')
          = [(0%nat, JObject []); (2%nat, JObject [])]
       /\ invocations 1%nat (new_calls w w') = 0%nat.
Proof.
  split; [discriminate|]. split; [reflexivity|].
  do 2 eexists. split_and!; try (vm_compute; reflexivity);
    vm_compute; repeat constructor.
Qed.

(** C7, counterexample.  Listeners 0, 1 and 2 are registered and a
    message is dispatched.  Listener 0 unsubscribes listener 1 and then
    throws.  The error is caught and logged and listener 2 is invoked, but
    listener 1, registered when the dispatch began and not the one that
    threw, is not invoked for the message. *)
Lemma throwing_listener_leaves_a_registered_listener_uncalled :
  registered 0%nat three_listeners
  /\ registered 1%nat three_listeners
  /\ registered 2%nat three_listeners
  /\ exists w',
       notifyListeners host_unsubscribing_and_throwing 3 JNull three_listeners = Done w'
       /\ map (fun x => (inv_cb x, inv_completion x)) (new_calls three_listeners w')
          = [(0%nat, Throw); (2%nat, Normal)]
       /\ invocations 1%nat (new_calls three_listeners w') = 0%nat
       /\ console w' = [console_error "Error in WebSocket listener:"].
Proof.
  split_and!; try (vm_compute; repeat constructor).
  eexists. split_and!; vm_compute; reflexivity.
Qed.

(** X11, witness: two listeners on an open client; a message, a heartbeat
    answer, a frame that does not parse and another message arrive. *)
Lemma frames_reach_every_listener_in_order_witness :
  exists w w',
    run host_idle 2 [Call_subscribe 0%nat; Call_subscribe 1%nat; Call_connect; Ev_open 0]
        (init 0%nat) = Some w
    /\ run host_idle 2 (map (Ev_message 0) ["{}"; "pong"; "oops"; "[]"]) w = Some w'
    /\ map (fun x => (inv_cb x, inv_data x)) (new_calls w w')
       = [(0%nat, JObject []); (1%nat, JObject []); (0%nat, JArray []); (1%nat, JArray [])].
Proof.
  destruct (run host_idle 2
              [Call_subscribe 0%nat; Call_subscribe 1%nat; Call_connect; Ev_open 0]
              (init 0%nat)) as [w|] eqn:Hw; [|by vm_compute in Hw].
  assert (Hs : sockets w !! 0%nat
               = Some (mkWebSocket "ws://localhost:8000/ws/events" OPEN []))
    by (vm_compute in Hw; by injection Hw as <-).
  assert (Hl : listeners (this w) = [Some 0%nat; Some 1%nat])
    by (vm_compute in Hw; by injection Hw as <-).
  destruct (frames_reach_every_listener_in_order host_idle 2 0%nat _
              ["{}"; "pong"; "oops"; "[]"] w (fun c d u => eq_refl) Hs eq_refl)
    as (w' & Hrun & Hcalls & _); [by rewrite Hl|].
  exists w, w'. split; [reflexivity|]. split; [exact Hrun|].
  rewrite Hcalls, Hl. vm_compute. reflexivity.
Defined.
